(** * Xopt: the sequential-generator protocol and the MOBO driver

    A shallow embedding of
    - [xopt/generators/sequential/sequential_generator.py]
      (class [SequentialGenerator]), and
    - [xopt/mobo.py] ([sampler_evaluate], [get_results], [collect_results],
      [optimize_qehvi], [mobo]),
    followed by the properties of the two that the specification states.

    Conventions of the embedding.
    - A Python [float] is a rational number ([Q]); rounding, infinities and
      NaN are outside the model.
    - A Python [dict] that is only looked up is a [gmap string _]; a [dict]
      whose key order is iterated over (the VOCS tables) is an association
      list.
    - A 2-D tensor is the list of its rows; a [pandas.DataFrame] is the list
      of its rows, each row a [gmap] from column name to value.
    - A raised exception is a value [Exn class message]; a method of an
      object is a state transformer that returns the outcome together with
      the object as the call left it, so that what was mutated before a
      [raise] stays mutated. *)

From Stdlib Require Import QArith Qabs Qminmax ZArith Lia Lqa.
From stdpp Require Import gmap strings list.

Set Default Proof Using "Type".

(** ** Python outcomes *)

Record exn := Exn { exn_class : string; exn_msg : string }.

Inductive py (A : Type) : Type :=
| Return (a : A)
| Raise (e : exn).
Arguments Return {A} a.
Arguments Raise {A} e.

Definition py_bind {A B} (c : py A) (k : A -> py B) : py B :=
  match c with
  | Return a => k a
  | Raise e => Raise e
  end.

Notation "x <~ c ;; k" := (py_bind c (fun x => k))
  (at level 100, c at next level, right associativity).

(** [[f x for x in xs]] where [f] may raise: the first exception wins. *)
Fixpoint py_map {A B} (f : A -> py B) (xs : list A) : py (list B) :=
  match xs with
  | [] => Return []
  | x :: xs' => y <~ f x ;; ys <~ py_map f xs' ;; Return (y :: ys)
  end.

(** [d[k]] on a dict. *)
Definition getitem {V} (d : gmap string V) (k : string) : py V :=
  match d !! k with
  | Some v => Return v
  | None => Raise (Exn "KeyError" k)
  end.

(** The values a dict holds under the given keys, in the order of the keys
    ([0] for a key it does not hold). *)
Definition row_of (d : gmap string Q) (ks : list string) : list Q :=
  (fun k => default 0%Q (d !! k)) <$> ks.

(** [l[i]] on a list, [i >= 0]. *)
Definition list_getitem {A} (l : list A) (i : nat) : py A :=
  match l !! i with
  | Some v => Return v
  | None => Raise (Exn "IndexError" "list index out of range")
  end.

(** [numpy.isclose] / [numpy.allclose] on finite values:
    [|a - b| <= atol + rtol * |b|], elementwise. *)
Definition isclose (rtol atol a b : Q) : bool :=
  Qle_bool (Qabs (a - b)) (atol + rtol * Qabs b).

Definition allclose (a b : list Q) (rtol atol : Q) : bool :=
  forallb (fun ab => isclose rtol atol (fst ab) (snd ab)) (zip a b).

(** ** [SequentialGenerator] *)

Module Sequential.

Definition SeqGeneratorError (msg : string) : exn := Exn "SeqGeneratorError" msg.
Definition ValueError (msg : string) : exn := Exn "ValueError" msg.

(** The part of [vocs] the class reads. *)
Record VOCS := { variable_names : list string; objective_names : list string }.

Section Generator.

(** The fields a subclass adds (simplex, step counters, ...). *)
Context {Alg : Type}.

Record Generator := mkGenerator {
  vocs : VOCS;
  data : option (list (gmap string Q));
  is_active : bool;
  _last_candidate : option (list (gmap string Q));
  _data_set : bool;
  alg : Alg
}.

Definition with_data d (g : Generator) : Generator :=
  mkGenerator (vocs g) d (is_active g) (_last_candidate g) (_data_set g) (alg g).
Definition with_is_active b (g : Generator) : Generator :=
  mkGenerator (vocs g) (data g) b (_last_candidate g) (_data_set g) (alg g).
Definition with_last_candidate c (g : Generator) : Generator :=
  mkGenerator (vocs g) (data g) (is_active g) c (_data_set g) (alg g).
Definition with_data_set b (g : Generator) : Generator :=
  mkGenerator (vocs g) (data g) (is_active g) (_last_candidate g) b (alg g).

(** A generator as the class attributes leave it at construction. *)
Definition fresh (v : VOCS) (a : Alg) : Generator :=
  mkGenerator v None false None false a.

(** Methods: state transformers over the generator. *)
Definition M (A : Type) : Type := Generator -> py A * Generator.

Definition ret {A} (a : A) : M A := fun g => (Return a, g).
Definition raise {A} (e : exn) : M A := fun g => (Raise e, g).
Definition bind {A B} (c : M A) (k : A -> M B) : M B := fun g =>
  match c g with
  | (Return a, g') => k a g'
  | (Raise e, g') => (Raise e, g')
  end.
Definition get : M Generator := fun g => (Return g, g).
Definition modify (f : Generator -> Generator) : M unit := fun g => (Return tt, f g).
Definition lift {A} (c : py A) : M A := fun g => (c, g).

Notation "x <- c ;; k" := (bind c (fun x => k))
  (at level 100, c at next level, right associativity).
Notation "c ;;; k" := (bind c (fun _ => k))
  (at level 100, right associativity).

(** The four methods a subclass must implement; the base class raises
    [NotImplementedError] in each.  A hook is a method like any other: it
    reads and may write every field of the generator. *)
Variable _add_data : list (gmap string Q) -> M unit.
Variable _set_data : list (gmap string Q) -> M unit.
Variable _generate : bool -> M (option (list (gmap string Q))).
Variable _reset : M unit.

(** [self._last_candidate[0]] *)
Definition last_candidate_0 (g : Generator) : py (gmap string Q) :=
  match _last_candidate g with
  | None => Raise (Exn "TypeError" "'NoneType' object is not subscriptable")
  | Some c => list_getitem c 0
  end.

Definition validate_point (point : gmap string Q) : M unit :=
  g <- get ;;
  last_candidate <- lift (py_map (fun ele => c <~ last_candidate_0 g ;; getitem c ele)
                                 (variable_names (vocs g))) ;;
  point_variables <- lift (py_map (fun ele => getitem point ele)
                                  (variable_names (vocs g))) ;;
  if negb (allclose last_candidate point_variables (1 # 1000000) 0)
  then raise (SeqGeneratorError
    "Cannot add data that was not generated by the generator when generator is active. Call reset() to reset the generator first in order to add data via other methods.")
  else ret tt.

Definition add_data (new_data : list (gmap string Q)) : M unit :=
  g <- get ;;
  (if is_active g then
     match _last_candidate g with
     | None => raise (SeqGeneratorError
         "Generator is active, but no candidate was generated. Cannot add data.")
     | Some _ =>
         if (1 <? length new_data)%nat
         then raise (SeqGeneratorError
           "Cannot add more than one data point when generator is active.")
         else p <- lift (last_candidate_0 g) ;; validate_point p
     end
   else ret tt) ;;;
  modify (fun g => match data g with
                   | Some d => with_data (Some (d ++ new_data)) g
                   | None => with_data (Some new_data) g
                   end) ;;;
  _add_data new_data.

Definition set_data (d : list (gmap string Q)) : M unit :=
  g <- get ;;
  if _data_set g
  then raise (ValueError "Data has already been initialized for this generator.")
  else _set_data d ;;; modify (with_data_set true).

Definition generate (n_candidates : Z) : M (option (list (gmap string Q))) :=
  if (1 <? n_candidates)%Z
  then raise (SeqGeneratorError
    "Sequential generators can only generate one candidate at a time.")
  else
    g <- get ;;
    candidate <- (if negb (is_active g)
                  then c <- _generate true ;;
                       modify (with_is_active true) ;;; ret c
                  else _generate false) ;;
    modify (with_last_candidate candidate) ;;;
    ret candidate.

Definition reset : M unit :=
  modify (with_is_active false) ;;;
  modify (with_last_candidate None) ;;;
  _reset.

(** [_get_initial_point], on a dataset whose rows carry the columns of the
    frame; [class_name] is [self.__class__.__name__]. *)
Definition _get_initial_point (class_name : string) : M (list Q * list Q) :=
  g <- get ;;
  let no_point :=
    ValueError ("At least one point is required to start " ++ class_name
                ++ ", add data manually or via Xopt.random_evaluate() or Xopt.evaluate_data()") in
  match data g with
  | None => raise no_point
  | Some d =>
      if (length d =? 0)%nat then raise no_point
      else
        last_row <- lift (list_getitem d (length d - 1)) ;;
        x0 <- lift (py_map (getitem last_row) (variable_names (vocs g))) ;;
        f0 <- lift (py_map (getitem last_row) (objective_names (vocs g))) ;;
        ret (x0, f0)
  end.

End Generator.

Arguments Generator Alg : clear implicits.

End Sequential.

(** ** [mobo.py] *)

Module Mobo.

Definition NoValidResultsError (msg : string) : exn := Exn "NoValidResultsError" msg.
Definition IndexError (msg : string) : exn := Exn "IndexError" msg.

(** A 2-D tensor, row by row.  The tensors of this file are rectangular;
    a tensor without rows has lost its number of columns. *)
Abbreviation tensor := (list (list Q)).

(** [t[i]] with Python's negative indices. *)
Definition py_index {A} (l : list A) (i : Z) : py A :=
  let n := Z.of_nat (length l) in
  if ((0 <=? i) && (i <? n))%Z then list_getitem l (Z.to_nat i)
  else if ((- n <=? i) && (i <? 0))%Z then list_getitem l (Z.to_nat (n + i))
  else Raise (IndexError "index out of range").

(** [t.shape[-1]] *)
Definition ncols (t : tensor) : nat :=
  match t with
  | [] => 0
  | row :: _ => length row
  end.

(** [t[:, j]] *)
Definition col (t : tensor) (j : nat) : py (list Q) :=
  py_map (fun row => py_index row (Z.of_nat j)) t.

(** [t[:, j] = v], for [v] as long as [t] and [j] a column of [t]. *)
Definition set_col (t : tensor) (j : nat) (v : list Q) : tensor :=
  zip_with (fun row x => <[j := x]> row) t v.

(** [torch.hstack((a, b))] and [torch.vstack((a, b))] *)
Definition hstack (a b : tensor) : tensor := zip_with app a b.
Definition vstack (a b : tensor) : tensor := a ++ b.

(** [t[mask]] for a boolean mask over the rows. *)
Definition mask_rows (t : tensor) (mask : list bool) : tensor :=
  fst <$> filter (fun rm => snd rm = true) (zip t mask).

(** [(t <= 0).all(dim=-1)] *)
Definition all_le_0 (t : tensor) : list bool :=
  (fun row : list Q => forallb (fun x => Qle_bool x 0) row) <$> t.

(** [(t > ref).all(dim=-1)], [ref] broadcast over the rows. *)
Definition all_gt (t : tensor) (ref : list Q) : list bool :=
  (fun row : list Q => forallb (fun xr => negb (Qle_bool (fst xr) (snd xr))) (zip row ref)) <$> t.

(** The problem description: three dicts, iterated in insertion order.
    A constraint is the list [[direction, threshold]]. *)
Record VOCS := mkVOCS {
  variables : list (string * (Q * Q));
  objectives : list (string * string);
  constraints : list (string * (string * Q))
}.

(** [d.keys()] *)
Definition keys {V} (d : list (string * V)) : list string := fst <$> d.

(** What [sampler_evaluate] returns.  For a failed evaluation the source
    stores the strings [{'Exception': ..., 'Traceback': ...}] under
    ['outputs']; no numeric lookup reads them, and they are kept here in
    [exception], with [outputs] empty. *)
Record result := mkResult {
  inputs : gmap string Q;
  outputs : gmap string Q;
  exception : option string;
  error : bool
}.

Definition sampler_evaluate (inputs : gmap string Q)
    (evaluate_f : gmap string Q -> py (gmap string Q)) : result :=
  match evaluate_f inputs with
  | Return outputs => mkResult inputs outputs None false
  | Raise ex => mkResult inputs ∅ (Some (exn_msg ex)) true
  end.

(** [get_results] on futures that are all done, which is what the serial
    [DummyExecutor] hands back: the first pass of the polling loop appends
    every result and leaves [ii = n_samples + 1], which ends the loop. *)
Definition get_results (futures : list result) : list result :=
  foldl (fun results fut => results ++ [fut]) [] futures.

(** The [for] loop of [collect_results], lines 112-118. *)
Fixpoint collect_loop (vocs : VOCS) (results : list result)
    (acc : tensor * tensor * tensor * bool) : py (tensor * tensor * tensor * bool) :=
  match results with
  | [] => Return acc
  | result :: rest =>
      let '(train_x, train_y, train_c, at_least_one_point) := acc in
      if negb (error result) then
        x <~ py_map (getitem (inputs result)) (keys (variables vocs)) ;;
        y <~ py_map (getitem (outputs result)) (keys (objectives vocs)) ;;
        c <~ py_map (getitem (outputs result)) (keys (constraints vocs)) ;;
        collect_loop vocs rest (train_x ++ [x], train_y ++ [y], train_c ++ [c], true)
      else collect_loop vocs rest acc
  end.

Definition collect_results (results : list result) (vocs : VOCS)
    : py (tensor * tensor * tensor) :=
  acc <~ collect_loop vocs results ([], [], [], false) ;;
  let '(train_x, train_y, train_c, at_least_one_point) := acc in
  if negb at_least_one_point
  then Raise (NoValidResultsError "No valid results")
  else Return (train_x, train_y, train_c).

(** *** The acquisition step *)

(** The objects [optimize_qehvi] builds, each as the record of the
    arguments it is constructed from. *)
Record SingleTaskGP := mkSingleTaskGP { train_X : tensor; train_Y : tensor }.

Record NondominatedPartitioning := mkPartitioning {
  part_ref_point : list Q;
  part_Y : tensor
}.

Record qExpectedHypervolumeImprovement := mkQEHVI {
  acq_model : SingleTaskGP;
  acq_ref_point : list Q;
  acq_partitioning : NondominatedPartitioning;
  acq_sampler : nat;                      (* SobolQMCNormalSampler(mc_samples) *)
  acq_objective : list nat;               (* IdentityMCMultiOutputObjective(outcomes=...) *)
  acq_constraints : list (list Q -> py Q) (* each maps a model output Z to a value, feasible iff <= 0 *)
}.

Record optimize_acqf_args := mkOptimizeArgs {
  acq_function : qExpectedHypervolumeImprovement;
  bounds : tensor;
  q : nat;
  num_restarts : nat;
  raw_samples : nat;
  options : nat * nat * bool;             (* batch_limit, maxiter, nonnegative *)
  sequential : bool
}.

(** [constraint_functions], lines 156-158. *)
Definition constraint_functions : list (list Q -> py Q) :=
  [] ++ [fun Z => py_index Z (-1)] ++ [fun Z => py_index Z (-2)].

(** [standard_bounds], lines 171-172: zeros of the shape of [bounds], row 1
    set to ones. *)
Definition standard_bounds (bounds : tensor) : tensor :=
  let zeros : tensor := (fun row : list Q => (fun _ => 0%Q) <$> row) <$> bounds in
  alter (fun row : list Q => (fun _ => 1%Q) <$> row) 1%nat zeros.

(** [botorch.utils.transforms.unnormalize]:
    [X * (bounds[1] - bounds[0]) + bounds[0]]. *)
Definition unnormalize (X : tensor) (bounds : tensor) : tensor :=
  let lo := default [] (bounds !! 0%nat) in
  let hi := default [] (bounds !! 1%nat) in
  (fun row : list Q =>
     zip_with (fun x lh => (x * (snd lh - fst lh) + fst lh)%Q) row (zip lo hi)) <$> X.

(** What [logger.warning] is called with. *)
Inductive warning :=
| ObjectiveGoalNotFound (goal : string)
| ConstraintGoalNotFound (goal : string * Q).

(** The objective loop, lines 348-356; [j] counts the columns. *)
Fixpoint correct_objectives (train_y : tensor) (ref : list Q) (j : nat)
    (objs : list (string * string)) (acc : tensor * list Q * list warning)
    : py (tensor * list Q * list warning) :=
  match objs with
  | [] => Return acc
  | (name, goal) :: rest =>
      let '(corrected_train_y, corrected_ref, log) := acc in
      if String.eqb goal "MINIMIZE" then
        y <~ col train_y j ;;
        r <~ py_index ref (Z.of_nat j) ;;
        correct_objectives train_y ref (S j) rest
          (set_col corrected_train_y j (Qopp <$> y), <[j := (- r)%Q]> corrected_ref, log)
      else if String.eqb goal "MAXIMIZE" then
        correct_objectives train_y ref (S j) rest acc
      else
        correct_objectives train_y ref (S j) rest
          (corrected_train_y, corrected_ref, log ++ [ObjectiveGoalNotFound goal])
  end.

(** The constraint loop, lines 362-369; [k] counts the columns. *)
Fixpoint correct_constraints (train_c : tensor) (k : nat)
    (cons : list (string * (string * Q))) (acc : tensor * list warning)
    : py (tensor * list warning) :=
  match cons with
  | [] => Return acc
  | (name, goal) :: rest =>
      let '(corrected_train_c, log) := acc in
      if String.eqb (fst goal) "GREATER_THAN" then
        c <~ col train_c k ;;
        correct_constraints train_c (S k) rest
          (set_col corrected_train_c k ((fun x => (snd goal - x)%Q) <$> c), log)
      else if String.eqb (fst goal) "LESS_THAN" then
        c <~ col train_c k ;;
        correct_constraints train_c (S k) rest
          (set_col corrected_train_c k ((fun x => (- (snd goal - x))%Q) <$> c), log)
      else
        correct_constraints train_c (S k) rest
          (corrected_train_c, log ++ [ConstraintGoalNotFound goal])
  end.

Record normalized := mkNormalized {
  corrected_ref : list Q;
  corrected_train_y : tensor;
  standardized_train_y : tensor;
  corrected_train_c : tensor;
  train_outputs : tensor;
  norm_log : list warning
}.

(** The local variables of [mobo] that live across iterations. *)
Record locals := mkLocals {
  train_x : tensor;
  train_y : tensor;
  train_c : tensor;
  hv_track : list Q;
  model : option SingleTaskGP;
  log : list warning
}.

(** *** Vocabulary of the statements *)

(** The outcomes of a batch that did not fail, in encounter order. *)
Definition successes (results : list result) : list result :=
  filter (fun r => error r = false) results.

(** An outcome that carries a value for every variable in its inputs and
    for every objective and constraint in its outputs. *)
Definition complete (vocs : VOCS) (r : result) : Prop :=
  (forall k, k ∈ keys (variables vocs) -> is_Some (inputs r !! k)) /\
  (forall k, k ∈ keys (objectives vocs) -> is_Some (outputs r !! k)) /\
  (forall k, k ∈ keys (constraints vocs) -> is_Some (outputs r !! k)).

(** Equality of tensors as arrays of rationals. *)
Definition row_eqb (a b : list Q) : bool :=
  (length a =? length b)%nat && forallb (fun ab : Q * Q => Qeq_bool (fst ab) (snd ab)) (zip a b).
Definition tensor_eqb (a b : tensor) : bool :=
  (length a =? length b)%nat
  && forallb (fun ab : list Q * list Q => row_eqb (fst ab) (snd ab)) (zip a b).

(** *** [get_results] while the futures complete

    [done pass ix] is the answer of [futures[ix].done()] during pass number
    [pass] of the [while] loop, and [futures] holds what [fut.result()] gives
    once a future is done.  [fuel] bounds the number of passes: [None] means
    the loop is still polling after [fuel] of them. *)

(** One pass of the [for] loop, lines 83-90, on [(results, ii)]. *)
Definition poll_pass (done_now : nat -> bool) (futures : list result)
    (acc : list result * nat) : list result * nat :=
  foldl (fun acc (ix_fut : nat * result) =>
           if done_now (fst ix_fut)
           then (fst acc ++ [snd ix_fut], S (snd acc))
           else acc)
        acc (zip (seq 0 (length futures)) futures).

Fixpoint get_results_loop (fuel pass : nat) (done : nat -> nat -> bool)
    (futures : list result) (results : list result) (ii : nat)
    : option (list result) :=
  match fuel with
  | O => None
  | S fuel' =>
      let '(results, ii) := poll_pass (done pass) futures (results, ii) in
      if (length futures <? ii)%nat then Some results
      else get_results_loop fuel' (S pass) done futures results ii
  end.

Definition get_results_polling (fuel : nat) (done : nat -> nat -> bool)
    (futures : list result) : option (list result) :=
  get_results_loop fuel 0 done futures [] 1.

(** The results of the futures that answer [done_now], in submission order. *)
Definition done_results (done_now : nat -> bool) (futures : list result) : list result :=
  snd <$> filter (fun ix_fut : nat * result => done_now (fst ix_fut) = true)
                 (zip (seq 0 (length futures)) futures).

(** *** Vocabulary for the sign corrections *)

Definition corrected_objective (goal : string) (y : Q) : Q :=
  if String.eqb goal "MINIMIZE" then (- y)%Q else y.

Definition corrected_constraint (goal : string * Q) (c : Q) : Q :=
  if String.eqb (fst goal) "GREATER_THAN" then (snd goal - c)%Q
  else if String.eqb (fst goal) "LESS_THAN" then (- (snd goal - c))%Q
  else c.

(** What a constraint asks of a raw value: at least the threshold for
    [GREATER_THAN], at most the threshold for [LESS_THAN], and at most [0]
    for any other direction. *)
Definition satisfied (goal : string * Q) (c : Q) : bool :=
  if String.eqb (fst goal) "GREATER_THAN" then Qle_bool (snd goal) c
  else if String.eqb (fst goal) "LESS_THAN" then Qle_bool c (snd goal)
  else Qle_bool c 0.

Definition objective_warnings (objs : list (string * string)) : list warning :=
  omap (fun o : string * string =>
          if String.eqb (snd o) "MINIMIZE" then None
          else if String.eqb (snd o) "MAXIMIZE" then None
          else Some (ObjectiveGoalNotFound (snd o))) objs.

Definition constraint_warnings (cons : list (string * (string * Q))) : list warning :=
  omap (fun c : string * (string * Q) =>
          if String.eqb (fst (snd c)) "GREATER_THAN" then None
          else if String.eqb (fst (snd c)) "LESS_THAN" then None
          else Some (ConstraintGoalNotFound (snd c))) cons.

(** A column-wise correction, column by column from [k] on: [upds] gives for
    each column the map applied to its raw value, if any. *)
Fixpoint fold_cols (upds : list (option (Q -> Q))) (k : nat) (raw acc : list Q) : list Q :=
  match upds with
  | [] => acc
  | u :: rest =>
      fold_cols rest (S k) raw
        (match u with
         | Some f => <[k := f (default 0%Q (raw !! k))]> acc
         | None => acc
         end)
  end.

Definition apply_update (u : option (Q -> Q)) (x : Q) : Q :=
  match u with
  | Some f => f x
  | None => x
  end.

Definition objective_update (o : string * string) : option (Q -> Q) :=
  if String.eqb (snd o) "MINIMIZE" then Some Qopp else None.

Definition constraint_update (c : string * (string * Q)) : option (Q -> Q) :=
  if String.eqb (fst (snd c)) "GREATER_THAN" then Some (fun x => (snd (snd c) - x)%Q)
  else if String.eqb (fst (snd c)) "LESS_THAN" then Some (fun x => (- (snd (snd c) - x))%Q)
  else None.

(** A successful outcome that lacks a value it is asked for. *)
Definition lacks (vocs : VOCS) (r : result) : Prop :=
  (exists k, k ∈ keys (variables vocs) /\ inputs r !! k = None) \/
  (exists k, k ∈ keys (objectives vocs) /\ outputs r !! k = None) \/
  (exists k, k ∈ keys (constraints vocs) /\ outputs r !! k = None).

(** [IdentityMCMultiOutputObjective(outcomes=...)]: the constructor of the
    library rejects fewer than two outcomes. *)
Definition BotorchTensorDimensionError (msg : string) : exn :=
  Exn "BotorchTensorDimensionError" msg.

Definition IdentityMCMultiOutputObjective (outcomes : list nat) : py (list nat) :=
  if (length outcomes <? 2)%nat
  then Raise (BotorchTensorDimensionError "Must specify at least two outcomes for MOO.")
  else Return outcomes.

Section Capabilities.

(** The external capabilities the driver calls; those of the modelling
    library may raise. *)
Variable evaluate_f : gmap string Q -> py (gmap string Q).
Variable standardize : tensor -> tensor.
Variable fit_gpytorch_model : SingleTaskGP -> py unit.
  (* SingleTaskGP(...), ExactMarginalLogLikelihood(...) and fit_gpytorch_model(mll) *)
Variable optimize_acqf : optimize_acqf_args -> py (tensor * list Q).
Variable is_non_dominated : tensor -> list bool.
Variable hv_compute : list Q -> tensor -> py Q.
  (* Hypervolume(ref_point).compute(pareto_y) *)
Variable draw_sobol_samples : tensor -> nat -> nat -> list tensor.

(** [optimize_qehvi], lines 141-169: the acquisition function it builds. *)
Definition qehvi_acq_func (model : SingleTaskGP) (train_y train_c : tensor)
    (ref_point : list Q) (sampler : nat) : py qExpectedHypervolumeImprovement :=
  let n_obectives := ncols train_y in
  let n_constraints := ncols train_c in
  let is_feas := all_le_0 train_c in
  let better_than_ref := all_gt train_y ref_point in
  let partitioning :=
    mkPartitioning ref_point
      (mask_rows train_y (zip_with andb better_than_ref is_feas)) in
  objective <~ IdentityMCMultiOutputObjective (seq 0 n_obectives) ;;
  Return (mkQEHVI model ref_point partitioning sampler objective constraint_functions).

(** [optimize_qehvi] with [plot=False]: lines 171-172 and 222-234. *)
Definition optimize_qehvi (model : SingleTaskGP) (train_y train_c bounds : tensor)
    (ref_point : list Q) (sampler : nat)
    (batch_size num_restarts raw_samples : nat) : py tensor :=
  acq_func <~ qehvi_acq_func model train_y train_c ref_point sampler ;;
  let standard_bounds := standard_bounds bounds in
  r <~ optimize_acqf (mkOptimizeArgs acq_func bounds batch_size num_restarts
                                     raw_samples (5, 200, true)%nat true) ;;
  let '(candidates, _) := r in
  (* return unnormalize(candidates.detach(), bounds=bounds) *)
  Return candidates.

(** *** The driver *)

(** Lines 343-372 of [mobo]: the sign-corrected and standardized working
    copies an iteration computes from the raw training data. *)
Definition normalize (vocs : VOCS) (ref : list Q) (train_y train_c : tensor)
    (log : list warning) : py normalized :=
  acc <~ correct_objectives train_y ref 0 (objectives vocs) (train_y, ref, log) ;;
  let '(corrected_train_y, corrected_ref, log) := acc in
  let standardized_train_y := standardize corrected_train_y in
  acc <~ correct_constraints train_c 0 (constraints vocs) (train_c, log) ;;
  let '(corrected_train_c, log) := acc in
  let train_outputs := hstack standardized_train_y corrected_train_c in
  Return (mkNormalized corrected_ref corrected_train_y standardized_train_y
                       corrected_train_c train_outputs log).

(** Lines 413-424: the hypervolume an iteration reports. *)
Definition report_volume (n : normalized) : py Q :=
  let is_feas := all_le_0 (corrected_train_c n) in
  let feas_train_obj := mask_rows (corrected_train_y n) is_feas in
  if (0 <? length feas_train_obj)%nat then
    let pareto_mask := is_non_dominated feas_train_obj in
    let pareto_y := mask_rows feas_train_obj pareto_mask in
    hv_compute (corrected_ref n) pareto_y
  else Return 0%Q.

(** [[submit(sampler_evaluate, dict(zip(variable_names, x)), evaluate_f) for x in xs]]
    followed by [get_results]. *)
Definition evaluate_batch (vocs : VOCS) (xs : tensor) : list result :=
  get_results
    ((fun x : list Q =>
        sampler_evaluate (list_to_map (zip (keys (variables vocs)) x)) evaluate_f) <$> xs).

(** The surrogate an iteration fits and the candidates it proposes, lines
    374-389. *)
Definition propose (mc_samples : nat) (bounds : tensor) (train_x : tensor)
    (n : normalized) : py (SingleTaskGP * tensor) :=
  let model := mkSingleTaskGP train_x (train_outputs n) in
  _ <~ fit_gpytorch_model model ;;
  let mc_sampler := mc_samples in
  candidates <~ optimize_qehvi model (standardized_train_y n) (corrected_train_c n)
                               bounds (corrected_ref n) mc_sampler 1 20 1024 ;;
  Return (model, candidates).

(** One pass through the body of the [for] loop, lines 339-427. *)
Definition mobo_iteration (vocs : VOCS) (ref : list Q) (mc_samples : nat)
    (bounds : tensor) (st : locals) : py locals :=
  n <~ normalize vocs ref (train_y st) (train_c st) (log st) ;;
  mc <~ propose mc_samples bounds (train_x st) n ;;
  let '(model, candidates) := mc in
  let results := evaluate_batch vocs candidates in
  match collect_results results vocs with
  | Return (new_x, new_y, new_c) =>
      volume <~ report_volume n ;;
      Return (mkLocals (vstack (train_x st) new_x) (vstack (train_y st) new_y)
                       (vstack (train_c st) new_c) (hv_track st ++ [volume])
                       (Some model) (norm_log n))
  | Raise e =>
      if String.eqb (exn_class e) "NoValidResultsError"
      then (* continue *)
        Return (mkLocals (train_x st) (train_y st) (train_c st) (hv_track st)
                         (Some model) (norm_log n))
      else Raise e
  end.

(** [for i in range(n_steps)] *)
Fixpoint mobo_loop (vocs : VOCS) (ref : list Q) (mc_samples : nat)
    (bounds : tensor) (n_steps : nat) (st : locals) : py locals :=
  match n_steps with
  | O => Return st
  | S n => st' <~ mobo_iteration vocs ref mc_samples bounds st ;;
           mobo_loop vocs ref mc_samples bounds n st'
  end.

(** [bounds], lines 310-311: row 0 the lower ends, row 1 the upper ends. *)
Definition get_bounds (vocs : VOCS) : tensor :=
  [(fun v : string * (Q * Q) => fst (snd v)) <$> variables vocs;
   (fun v : string * (Q * Q) => snd (snd v)) <$> variables vocs].

(** [mobo] up to the end of the loop, with its local variables as the loop
    leaves them. *)
Definition mobo_locals (vocs : VOCS) (ref : list Q) (n_steps mc_samples : nat)
    (n_initial_samples : nat) (initial_x : option tensor) : py locals :=
  let bounds := get_bounds vocs in
  initial_x <~ match initial_x with
               | None => list_getitem (draw_sobol_samples bounds 1 n_initial_samples) 0
               | Some x => Return x
               end ;;
  let results := evaluate_batch vocs initial_x in
  t <~ collect_results results vocs ;;
  let '(train_x, train_y, train_c) := t in
  mobo_loop vocs ref mc_samples bounds n_steps
            (mkLocals train_x train_y train_c [] None []).

(** [mobo] with [plot_acq=False] and [return_model=False]. *)
Definition mobo (vocs : VOCS) (ref : list Q) (n_steps mc_samples : nat)
    (n_initial_samples : nat) (initial_x : option tensor)
    : py (tensor * tensor * tensor) :=
  st <~ mobo_locals vocs ref n_steps mc_samples n_initial_samples initial_x ;;
  Return (train_x st, train_y st, train_c st).

(** *** Vocabulary of the statements, over the capabilities *)

(** The hypervolume of the feasible Pareto rows of an objective tensor [Y],
    feasibility and reference point taken from [n]. *)
Definition volume_from (Y : tensor) (n : normalized) : py Q :=
  let feas := mask_rows Y (all_le_0 (corrected_train_c n)) in
  if (0 <? length feas)%nat
  then hv_compute (corrected_ref n) (mask_rows feas (is_non_dominated feas))
  else Return 0%Q.

(** The outcomes of the batch an iteration evaluates. *)
Definition iteration_batch (vocs : VOCS) (ref : list Q) (mc_samples : nat)
    (bounds : tensor) (st : locals) : py (list result) :=
  n <~ normalize vocs ref (train_y st) (train_c st) (log st) ;;
  mc <~ propose mc_samples bounds (train_x st) n ;;
  Return (evaluate_batch vocs (snd mc)).

Definition batch_has_success (vocs : VOCS) (ref : list Q) (mc_samples : nat)
    (bounds : tensor) (st : locals) : bool :=
  match iteration_batch vocs ref mc_samples bounds st with
  | Return results => bool_decide (successes results <> [])
  | Raise _ => false
  end.

(** Among the first [n_steps] iterations from [st], the number of those
    whose batch had a success. *)
Fixpoint successful_iterations (vocs : VOCS) (ref : list Q) (mc_samples : nat)
    (bounds : tensor) (n_steps : nat) (st : locals) : nat :=
  match n_steps with
  | O => O
  | S n =>
      match mobo_iteration vocs ref mc_samples bounds st with
      | Return st' =>
          (if batch_has_success vocs ref mc_samples bounds st then 1 else 0)
          + successful_iterations vocs ref mc_samples bounds n st'
      | Raise _ => O
      end
  end.

(** Whether the evaluation of the point [x] returns. *)
Definition evaluated_ok (vocs : VOCS) (x : list Q) : bool :=
  negb (error (sampler_evaluate (list_to_map (zip (keys (variables vocs)) x)) evaluate_f)).

End Capabilities.

End Mobo.

(** ** Concrete instances

    A smallest subclass of [SequentialGenerator] and a smallest set of
    capabilities for [mobo], on which the methods can be run. *)

Module Constant.
Import Sequential.

(** A sequential generator that proposes the point [x = 1] every time, keeps
    what [set_data] hands it, and has no state of its own. *)
Definition _add_data (new_data : list (gmap string Q)) : M (Alg := unit) unit :=
  ret tt.
Definition _set_data (d : list (gmap string Q)) : M (Alg := unit) unit :=
  modify (with_data (Some d)).
Definition _generate (first_gen : bool) : M (Alg := unit) (option (list (gmap string Q))) :=
  ret (Some [ {[ "x" := 1%Q ]} ]).
Definition _reset : M (Alg := unit) unit := ret tt.

Definition add_data := add_data _add_data.
Definition set_data := set_data _set_data.
Definition generate := generate _generate.
Definition reset := reset _reset.

Definition new : Generator unit := fresh (Build_VOCS ["x"] ["f"]) tt.

End Constant.

Module Base.
Import Sequential.

(** [SequentialGenerator] itself: each of its four hooks raises
    [NotImplementedError]. *)
Definition NotImplementedError (msg : string) : exn := Exn "NotImplementedError" msg.

Definition _add_data (new_data : list (gmap string Q)) : M (Alg := unit) unit :=
  raise (NotImplementedError "Sequential generators must implement _add_data method.").
Definition _set_data (d : list (gmap string Q)) : M (Alg := unit) unit :=
  raise (NotImplementedError "Sequential generators must implement _set_data method.").
Definition _generate (first_gen : bool) : M (Alg := unit) (option (list (gmap string Q))) :=
  raise (NotImplementedError "Sequential generators must implement _generate method.").
Definition _reset : M (Alg := unit) unit :=
  raise (NotImplementedError "Sequential generators must implement _reset method.").

End Base.

Module Toy.
Import Mobo.

(** [f(x) = x], raising beyond [limit]. *)
Definition evaluate_f (limit : Q) (inputs : gmap string Q) : py (gmap string Q) :=
  x <~ getitem inputs "x" ;;
  if Qle_bool x limit then Return {[ "f" := x ]}
  else Raise (Exn "ValueError" "x is out of range").

(** The square root of a rational whose reduced numerator and denominator
    are perfect squares. *)
Definition sqrt_exact (v : Q) : Q :=
  let r := Qred v in (Z.sqrt (Qnum r) # Pos.sqrt (Qden r)).

Definition Qsum (l : list Q) : Q := foldr Qplus 0%Q l.

(** Column [j] of a tensor, short rows skipped. *)
Definition column (t : tensor) (j : nat) : list Q :=
  omap (fun row : list Q => row !! j) t.

(** [botorch.utils.transforms.standardize] on a 2-D tensor:
    [(Y - Y.mean(dim=-2)) / Y.std(dim=-2)], the standard deviation unbiased
    and replaced by 1 where it is below 1e-9; exact where [sqrt_exact] is. *)
Definition standardize (Y : tensor) : tensor :=
  let n := Z.of_nat (length Y) in
  let mean (j : nat) : Q := (Qsum (column Y j) / inject_Z n)%Q in
  let std (j : nat) : Q :=
    let s := sqrt_exact
      (Qsum ((fun y => (y - mean j) * (y - mean j))%Q <$> column Y j) / inject_Z (n - 1)) in
    if Qle_bool (1 # 1000000000) s then s else 1%Q in
  (fun row : list Q => imap (fun j y => ((y - mean j) / std j)%Q) row) <$> Y.

(** The surrogate of the runs below is built and fitted without error. *)
Definition fit_gpytorch_model (model : SingleTaskGP) : py unit := Return tt.

(** An optimizer whose acquisition function peaks at [peak] in every raw
    design coordinate: each of the [q] candidates is the point of the box
    nearest to that peak. *)
Definition optimize_acqf (peak : Q) (args : optimize_acqf_args) : py (tensor * list Q) :=
  let lo := default [] (bounds args !! 0%nat) in
  let hi := default [] (bounds args !! 1%nat) in
  let nearest := (fun lh : Q * Q => Qmin (Qmax peak (fst lh)) (snd lh)) <$> zip lo hi in
  Return (replicate (q args) nearest, replicate (q args) 0%Q).

(** [botorch.utils.multi_objective.pareto.is_non_dominated]: a row is kept
    iff no row is at least as large everywhere and larger somewhere. *)
Definition dominates (a b : list Q) : bool :=
  forallb (fun ab : Q * Q => Qle_bool (snd ab) (fst ab)) (zip a b)
  && existsb (fun ab : Q * Q => negb (Qle_bool (fst ab) (snd ab))) (zip a b).

Definition is_non_dominated (Y : tensor) : list bool :=
  (fun y : list Q => negb (existsb (fun z => dominates z y) Y)) <$> Y.

(** [Hypervolume(ref_point).compute(pareto_y)], objectives to maximize: the
    volume of the union of the boxes between the reference point and the
    rows.  Rows with an entry below the reference point are dropped; the
    union is measured by inclusion and exclusion, the box shared by two rows
    being the one of their entrywise minimum. *)
Definition box_volume (ref_point y : list Q) : Q :=
  foldr Qmult 1%Q (zip_with (fun v r => (v - r)%Q) y ref_point).

Fixpoint union_volume (fuel : nat) (ref_point : list Q) (Y : tensor) : Q :=
  match fuel with
  | O => 0%Q
  | S fuel' =>
      match Y with
      | [] => 0%Q
      | y :: rest =>
          (box_volume ref_point y + union_volume fuel' ref_point rest
           - union_volume fuel' ref_point ((fun z : list Q => zip_with Qmin y z) <$> rest))%Q
      end
  end.

Definition hv_compute (ref_point : list Q) (pareto_y : tensor) : py Q :=
  let above :=
    filter (fun y : list Q =>
              forallb (fun vr : Q * Q => Qle_bool (snd vr) (fst vr)) (zip y ref_point) = true)
           pareto_y in
  Return (union_volume (length above) ref_point above).

Definition draw_sobol_samples (bounds : tensor) (n q : nat) : list tensor := [].

(** One variable [x] in [[0, 8]], one objective [f] to maximize, no
    constraint. *)
Definition vocs : VOCS := mkVOCS [("x", (0, 8))%Q] [("f", "MAXIMIZE")] [].

(** [f1(x) = x] and [f2(x) = 8 - x], raising beyond [limit]. *)
Definition evaluate_f2 (limit : Q) (inputs : gmap string Q) : py (gmap string Q) :=
  x <~ getitem inputs "x" ;;
  if Qle_bool x limit then Return {[ "f1" := x; "f2" := (8 - x)%Q ]}
  else Raise (Exn "ValueError" "x is out of range").

(** One variable [x] in [[0, 8]], two objectives to maximize, no constraint;
    the same with the first objective to minimize, and with a goal that is
    not recognized. *)
Definition vocs2 : VOCS :=
  mkVOCS [("x", (0, 8))%Q] [("f1", "MAXIMIZE"); ("f2", "MAXIMIZE")] [].
Definition vocs2_min : VOCS :=
  mkVOCS [("x", (0, 8))%Q] [("f1", "MINIMIZE"); ("f2", "MAXIMIZE")] [].
Definition vocs2_odd : VOCS :=
  mkVOCS [("x", (0, 8))%Q] [("f1", "BEST"); ("f2", "MAXIMIZE")] [].

(** The three points [x = 0, 2, 4] with their objectives, as a first batch
    leaves them. *)
Definition start : locals :=
  mkLocals [[0]; [2]; [4]]%Q [[0; 8]; [2; 6]; [4; 4]]%Q [[]; []; []] [] None [].

(** Futures of which only the first one is ever done. *)
Definition first_done (pass ix : nat) : bool := (ix =? 0)%nat.

(** A batch of two outcomes: a failure, then a success. *)
Definition batch : list result :=
  [ mkResult {[ "x" := 7%Q ]} ∅ (Some "x is out of range") true;
    mkResult {[ "x" := 2%Q ]} {[ "f" := 2%Q ]} None false ].

(** The driver on the two-objective problem: evaluations raise beyond
    [limit], the optimizer proposes the point nearest to [peak]. *)
Definition mobo_iteration (limit peak : Q) :=
  mobo_iteration (evaluate_f2 limit) standardize fit_gpytorch_model (optimize_acqf peak)
                 is_non_dominated hv_compute.
Definition mobo_loop (limit peak : Q) :=
  mobo_loop (evaluate_f2 limit) standardize fit_gpytorch_model (optimize_acqf peak)
            is_non_dominated hv_compute.
Definition mobo_locals (limit peak : Q) :=
  mobo_locals (evaluate_f2 limit) standardize fit_gpytorch_model (optimize_acqf peak)
              is_non_dominated hv_compute draw_sobol_samples.
Definition mobo (limit peak : Q) :=
  mobo (evaluate_f2 limit) standardize fit_gpytorch_model (optimize_acqf peak)
       is_non_dominated hv_compute draw_sobol_samples.

End Toy.

(** * Lemmas on the Python primitives *)

Lemma py_map_ext {A B} (f g : A -> py B) (xs : list A) :
  (forall x, f x = g x) -> py_map f xs = py_map g xs.
Proof.
  intros Hfg. induction xs as [|x xs IH]; [reflexivity|].
  simpl. rewrite Hfg, IH. reflexivity.
Qed.

Lemma py_map_getitem (d : gmap string Q) (ks : list string) :
  (forall k, k ∈ ks -> is_Some (d !! k)) ->
  py_map (getitem d) ks = Return (row_of d ks).
Proof.
  induction ks as [|k ks IH]; intros Hks; [reflexivity|].
  destruct (Hks k) as [x Hx]; [by left|].
  simpl. unfold getitem at 1. rewrite Hx. simpl.
  rewrite IH; [reflexivity|]. intros k' Hk'. apply Hks. by right.
Qed.

Lemma isclose_refl (rtol a : Q) : (0 <= rtol)%Q -> isclose rtol 0 a a = true.
Proof.
  intros Hr. unfold isclose. apply Qle_bool_iff.
  assert (Ha : (a - a == 0)%Q) by ring.
  rewrite Ha. simpl Qabs. rewrite Qplus_0_l.
  apply Qmult_le_0_compat; [exact Hr | apply Qabs_nonneg].
Qed.

Lemma allclose_refl (rtol : Q) (a : list Q) :
  (0 <= rtol)%Q -> allclose a a rtol 0 = true.
Proof.
  intros Hr. unfold allclose. induction a as [|x a IH]; [reflexivity|].
  simpl. rewrite isclose_refl by exact Hr. exact IH.
Qed.

(** * Properties of [SequentialGenerator] *)

Module SequentialProps.
Import Sequential.

Section Props.

Context {Alg : Type}.
Variable _add_data : list (gmap string Q) -> M (Alg := Alg) unit.
Variable _set_data : list (gmap string Q) -> M (Alg := Alg) unit.
Variable _generate : bool -> M (Alg := Alg) (option (list (gmap string Q))).
Variable _reset : M (Alg := Alg) unit.

(** While active, [validate_point] is handed the last candidate itself:
    whenever the last candidate has a value for every variable, the check
    passes and leaves the generator as it was. *)
Lemma validate_last_candidate (g : Generator Alg) c cs :
  _last_candidate g = Some (c :: cs) ->
  (forall k, k ∈ variable_names (vocs g) -> is_Some (c !! k)) ->
  validate_point c g = (Return tt, g).
Proof.
  intros Hc Hk. unfold validate_point, bind, get, lift.
  rewrite (py_map_ext _ (getitem c)).
  - change (fun ele : string => getitem c ele) with (getitem c).
    rewrite (py_map_getitem c _ Hk). cbn beta iota.
    rewrite allclose_refl by discriminate. reflexivity.
  - intros ele. unfold last_candidate_0. rewrite Hc. reflexivity.
Qed.

(** C10.  On a generator that is not active, [add_data] runs none of the
    protocol checks: whatever the new rows (none, one or many, of any
    values), the dataset of the generator becomes the old rows followed by
    the new ones (the new ones alone when there was no dataset), every other
    field staying as it was, and the rows are handed to the subclass's
    [_add_data] hook on that generator; the outcome of the hook is the
    outcome of the call. *)
Theorem add_data_inactive (g : Generator Alg) (new_data : list (gmap string Q)) :
  is_active g = false ->
  add_data _add_data new_data g
  = _add_data new_data
      (mkGenerator (vocs g)
                   (Some (match data g with
                          | Some d => d ++ new_data
                          | None => new_data
                          end))
                   false (_last_candidate g) (_data_set g) (alg g)).
Proof.
  intros Hact. unfold add_data, bind, get, modify, ret, with_data.
  rewrite Hact. destruct (data g); cbn; rewrite Hact; reflexivity.
Qed.

(** C4, as amended.  In every state, [generate] with [n_candidates > 1]
    raises a [SeqGeneratorError] (there is no [InvalidRequestError]), with
    the message about one candidate at a time, and leaves the generator,
    [is_active] and [_last_candidate] included, as it was. *)
Theorem generate_many_raises (g : Generator Alg) (n_candidates : Z) :
  (1 < n_candidates)%Z ->
  generate _generate n_candidates g
  = (Raise (SeqGeneratorError
             "Sequential generators can only generate one candidate at a time."), g).
Proof.
  intros Hn. unfold generate.
  destruct (Z.ltb_spec 1 n_candidates) as [_|Hle]; [reflexivity | lia].
Qed.

(** C9, as amended.  [reset] sets [is_active] to false and
    [_last_candidate] to [None], leaves [_data_set] and [data] as they
    were, and then runs the subclass's [_reset] hook on that generator;
    with a hook that keeps its hands off the three protocol fields, the
    generator after [reset] is inactive, has no last candidate, and has the
    [_data_set] flag it had before. *)
Theorem reset_keeps_data_set (g : Generator Alg) :
  (forall g0, is_active (snd (_reset g0)) = is_active g0 /\
              _last_candidate (snd (_reset g0)) = _last_candidate g0 /\
              _data_set (snd (_reset g0)) = _data_set g0) ->
  reset _reset g = _reset (mkGenerator (vocs g) (data g) false None (_data_set g) (alg g)) /\
  is_active (snd (reset _reset g)) = false /\
  _last_candidate (snd (reset _reset g)) = None /\
  _data_set (snd (reset _reset g)) = _data_set g.
Proof.
  intros Hframe.
  assert (Heq : reset _reset g
                = _reset (mkGenerator (vocs g) (data g) false None (_data_set g) (alg g)))
    by reflexivity.
  split; [exact Heq|]. rewrite Heq.
  destruct (Hframe (mkGenerator (vocs g) (data g) false None (_data_set g) (alg g)))
    as (Ha & Hl & Hd).
  rewrite Ha, Hl, Hd. auto.
Qed.

End Props.

(** C1.  The generator [Constant] has proposed [x = 1] and is active; a
    single new row with [x = 2], which is not within relative tolerance
    1e-6 of the candidate, is accepted and appended: the check compares the
    last candidate with itself. *)
Theorem add_data_accepts_unproposed_row :
  let g := snd (Constant.generate 1 Constant.new) in
  is_active g = true /\
  _last_candidate g = Some [ {[ "x" := 1%Q ]} ] /\
  allclose [1%Q] [2%Q] (1 # 1000000) 0 = false /\
  Constant.add_data [ {[ "x" := 2%Q ]} ] g
  = (Return tt, with_data (Some [ {[ "x" := 2%Q ]} ]) g).
Proof. vm_compute. repeat split; reflexivity. Qed.

Lemma add_data_inactive_witness :
  is_active Constant.new = false /\
  add_data Constant._add_data [ {[ "x" := 5%Q ]}; {[ "x" := 7%Q ]} ] Constant.new
  = (Return tt,
     mkGenerator (vocs Constant.new) (Some [ {[ "x" := 5%Q ]}; {[ "x" := 7%Q ]} ])
                 false None false tt).
Proof.
  split; [reflexivity|].
  rewrite (add_data_inactive Constant._add_data Constant.new
             [ {[ "x" := 5%Q ]}; {[ "x" := 7%Q ]} ] eq_refl).
  reflexivity.
Defined.

(** The claim of C4 fails on the error kind: the exception raised for two
    candidates is not an [InvalidRequestError]. *)
Lemma generate_two_not_InvalidRequestError :
  ~ (exists e, fst (Constant.generate 2 Constant.new) = Raise e /\
               exn_class e = "InvalidRequestError").
Proof.
  intros (e & He & Hc). vm_compute in He. inversion He; subst e.
  discriminate Hc.
Qed.

Lemma generate_many_raises_witness :
  (1 < 2)%Z /\
  generate Constant._generate 2 Constant.new
  = (Raise (SeqGeneratorError
             "Sequential generators can only generate one candidate at a time."),
     Constant.new).
Proof.
  split; [lia|].
  apply (generate_many_raises Constant._generate Constant.new 2); lia.
Defined.

(** The claim of C9 fails on the [_data_set] flag: after [set_data] and then
    [reset], the generator is not in the state of a freshly constructed one. *)
Lemma reset_after_set_data_not_fresh :
  let g := snd (Constant.reset (snd (Constant.set_data [] Constant.new))) in
  ~ (is_active g = is_active Constant.new /\
     _last_candidate g = _last_candidate Constant.new /\
     _data_set g = _data_set Constant.new).
Proof. vm_compute. intros (_ & _ & H). discriminate H. Qed.

Lemma reset_keeps_data_set_witness :
  let g := snd (Constant.set_data [] (snd (Constant.generate 1 Constant.new))) in
  is_active (snd (reset Constant._reset g)) = false /\
  _last_candidate (snd (reset Constant._reset g)) = None /\
  _data_set (snd (reset Constant._reset g)) = true.
Proof.
  pose (g := snd (Constant.set_data [] (snd (Constant.generate 1 Constant.new)))).
  destruct (reset_keeps_data_set Constant._reset g) as (_ & Ha & Hl & Hd).
  - intros g0. repeat split; reflexivity.
  - exact (conj Ha (conj Hl Hd)).
Defined.

End SequentialProps.

(** * Properties of [mobo.py] *)

Module MoboProps.
Import Mobo.

(** ** The result collector *)

Lemma py_map_getitem_raise (d : gmap string Q) (ks : list string) (e : exn) :
  py_map (getitem d) ks = Raise e -> exn_class e = "KeyError".
Proof.
  induction ks as [|k ks IH]; simpl; [discriminate|].
  unfold getitem at 1. destruct (d !! k); simpl.
  - destruct (py_map (getitem d) ks); simpl; [discriminate|].
    intros [= <-]. by apply IH.
  - by intros [= <-].
Qed.

Lemma successes_cons (r : result) (rest : list result) :
  successes (r :: rest) = if error r then successes rest else r :: successes rest.
Proof.
  unfold successes. destruct (error r) eqn:He.
  - apply filter_cons_False. cbn. rewrite He. discriminate.
  - apply filter_cons_True. exact He.
Qed.

(** An exception that escapes the loop of the collector is a [KeyError]. *)
Lemma collect_loop_raise (vocs : VOCS) (results : list result) acc (e : exn) :
  collect_loop vocs results acc = Raise e -> exn_class e = "KeyError".
Proof.
  revert acc. induction results as [|r rest IH]; intros [[[tx ty] tc] b]; simpl;
    [discriminate|].
  destruct (error r); simpl; [by apply IH|].
  destruct (py_map (getitem (inputs r)) _) eqn:Hx; simpl;
    [|intros [= <-]; by eapply py_map_getitem_raise].
  destruct (py_map (getitem (outputs r)) (keys (objectives vocs))) eqn:Hy; simpl;
    [|intros [= <-]; by eapply py_map_getitem_raise].
  destruct (py_map (getitem (outputs r)) (keys (constraints vocs))) eqn:Hc; simpl;
    [|intros [= <-]; by eapply py_map_getitem_raise].
  by apply IH.
Qed.

(** When the loop of the collector finishes, each tensor has grown by one
    row per success, and the flag records whether there was one. *)
Lemma collect_loop_return (vocs : VOCS) (results : list result)
    (tx ty tc : tensor) (b : bool) (tx' ty' tc' : tensor) (b' : bool) :
  collect_loop vocs results (tx, ty, tc, b) = Return (tx', ty', tc', b') ->
  b' = b || bool_decide (successes results <> []) /\
  length tx' = (length tx + length (successes results))%nat /\
  length ty' = (length ty + length (successes results))%nat /\
  length tc' = (length tc + length (successes results))%nat.
Proof.
  revert tx ty tc b. induction results as [|r rest IH]; intros tx ty tc b; simpl.
  - intros [= <- <- <- <-]. rewrite orb_false_r. repeat split; lia.
  - rewrite successes_cons. destruct (error r); simpl; [by apply IH|].
    destruct (py_map (getitem (inputs r)) _); simpl; [|discriminate].
    destruct (py_map (getitem (outputs r)) (keys (objectives vocs))); simpl; [|discriminate].
    destruct (py_map (getitem (outputs r)) (keys (constraints vocs))); simpl; [|discriminate].
    intros H. apply IH in H as (Hb & Hx & Hy & Hc).
    rewrite !length_app in *. simpl in *.
    rewrite orb_true_r. split; [by rewrite Hb|]. repeat split; lia.
Qed.

(** On complete successes the loop of the collector does not raise, and the
    rows it appends are those of the successes, in encounter order. *)
Lemma collect_loop_complete (vocs : VOCS) (results : list result)
    (tx ty tc : tensor) (b : bool) :
  Forall (complete vocs) (successes results) ->
  collect_loop vocs results (tx, ty, tc, b)
  = Return (tx ++ ((fun r => row_of (inputs r) (keys (variables vocs))) <$> successes results),
            ty ++ ((fun r => row_of (outputs r) (keys (objectives vocs))) <$> successes results),
            tc ++ ((fun r => row_of (outputs r) (keys (constraints vocs))) <$> successes results),
            b || bool_decide (successes results <> [])).
Proof.
  revert tx ty tc b. induction results as [|r rest IH]; intros tx ty tc b; simpl.
  - intros _. by rewrite !app_nil_r, orb_false_r.
  - rewrite successes_cons. destruct (error r); simpl; [by apply IH|].
    intros Hall. apply Forall_cons in Hall as [(Hx & Hy & Hc) Hall].
    rewrite (py_map_getitem _ _ Hx), (py_map_getitem _ _ Hy), (py_map_getitem _ _ Hc).
    simpl. rewrite (IH _ _ _ _ Hall). rewrite <- !app_assoc. simpl.
    by rewrite orb_true_r.
Qed.

Lemma collect_results_return (results : list result) (vocs : VOCS) t :
  collect_results results vocs = Return t ->
  successes results <> [] /\
  length (successes results) = length (fst (fst t)) /\
  length (successes results) = length (snd (fst t)) /\
  length (successes results) = length (snd t).
Proof.
  unfold collect_results.
  destruct (collect_loop vocs results _) as [[[[tx ty] tc] b]|e] eqn:Hl; simpl;
    [|discriminate].
  apply collect_loop_return in Hl as (Hb & Hx & Hy & Hc). simpl in *.
  destruct b; simpl; [|discriminate]. intros [= <-]. simpl.
  symmetry in Hb. apply bool_decide_eq_true in Hb. auto.
Qed.

Lemma collect_results_no_valid (results : list result) (vocs : VOCS) (e : exn) :
  collect_results results vocs = Raise e ->
  exn_class e = "NoValidResultsError" ->
  successes results = [].
Proof.
  unfold collect_results.
  destruct (collect_loop vocs results _) as [[[[tx ty] tc] b]|e'] eqn:Hl; simpl.
  - apply collect_loop_return in Hl as (Hb & _). simpl in Hb.
    destruct b; simpl; [discriminate|]. intros _ _.
    symmetry in Hb. apply bool_decide_eq_false in Hb.
    destruct (successes results); [reflexivity|]. exfalso. by apply Hb.
  - intros [= <-] Hc. apply collect_loop_raise in Hl. rewrite Hl in Hc. discriminate.
Qed.

(** C8.  A batch whose successful outcomes are complete and number [m >= 1]
    (whatever the number of failures, [k >= 1] included) yields the three
    tensors with exactly [m] rows each, the rows of the successes only and in
    encounter order; a batch with no success raises [NoValidResultsError]. *)
Theorem collect_results_successes (results : list result) (vocs : VOCS) :
  Forall (complete vocs) (successes results) ->
  (successes results <> [] ->
     collect_results results vocs
     = Return ((fun r => row_of (inputs r) (keys (variables vocs))) <$> successes results,
               (fun r => row_of (outputs r) (keys (objectives vocs))) <$> successes results,
               (fun r => row_of (outputs r) (keys (constraints vocs))) <$> successes results)
     /\ length ((fun r => row_of (inputs r) (keys (variables vocs))) <$> successes results)
        = length (successes results)
     /\ length ((fun r => row_of (outputs r) (keys (objectives vocs))) <$> successes results)
        = length (successes results)
     /\ length ((fun r => row_of (outputs r) (keys (constraints vocs))) <$> successes results)
        = length (successes results))
  /\ (successes results = [] ->
        collect_results results vocs = Raise (NoValidResultsError "No valid results")).
Proof.
  intros Hall. unfold collect_results.
  rewrite (collect_loop_complete vocs results [] [] [] false Hall). simpl.
  split.
  - intros Hne. rewrite bool_decide_eq_true_2 by exact Hne. simpl.
    rewrite !length_fmap. auto.
  - intros Hnil. rewrite bool_decide_eq_false_2; [reflexivity|].
    intros Hne. by apply Hne.
Qed.

(** ** The driver *)

Section Driver.

Variable evaluate_f : gmap string Q -> py (gmap string Q).
Variable standardize : tensor -> tensor.
Variable fit_gpytorch_model : SingleTaskGP -> py unit.
Variable optimize_acqf : optimize_acqf_args -> py (tensor * list Q).
Variable is_non_dominated : tensor -> list bool.
Variable hv_compute : list Q -> tensor -> py Q.
Variables (vocs : VOCS) (ref : list Q) (mc_samples : nat) (bounds : tensor).

Local Abbreviation iteration :=
  (mobo_iteration evaluate_f standardize fit_gpytorch_model optimize_acqf
                  is_non_dominated hv_compute vocs ref mc_samples bounds).
Local Abbreviation loop :=
  (mobo_loop evaluate_f standardize fit_gpytorch_model optimize_acqf
             is_non_dominated hv_compute vocs ref mc_samples bounds).
Local Abbreviation has_success :=
  (batch_has_success evaluate_f standardize fit_gpytorch_model optimize_acqf
                     vocs ref mc_samples bounds).
Local Abbreviation successful :=
  (successful_iterations evaluate_f standardize fit_gpytorch_model optimize_acqf
                         is_non_dominated hv_compute vocs ref mc_samples bounds).

Lemma normalize_inv (ty tc : tensor) (l : list warning) (n : normalized) :
  normalize standardize vocs ref ty tc l = Return n ->
  standardized_train_y n = standardize (corrected_train_y n) /\
  train_outputs n = hstack (standardize (corrected_train_y n)) (corrected_train_c n).
Proof.
  unfold normalize.
  destruct (correct_objectives _ _ _ _ _) as [[[cy cr] l1]|]; simpl; [|discriminate].
  destruct (correct_constraints _ _ _ _) as [[cc l2]|]; simpl; [|discriminate].
  intros [= <-]. split; reflexivity.
Qed.

(** When an iteration gets its candidates, the surrogate it fitted is the
    one built from the training inputs and the training outputs. *)
Lemma propose_inv (tx : tensor) (n : normalized) (m : SingleTaskGP) (candidates : tensor) :
  propose fit_gpytorch_model optimize_acqf mc_samples bounds tx n = Return (m, candidates) ->
  m = mkSingleTaskGP tx (train_outputs n) /\
  fit_gpytorch_model m = Return tt /\
  optimize_qehvi optimize_acqf m (standardized_train_y n) (corrected_train_c n) bounds
                 (corrected_ref n) mc_samples 1 20 1024 = Return candidates.
Proof.
  unfold propose.
  destruct (fit_gpytorch_model _) as [[]|] eqn:Hfit; cbn [py_bind]; [|discriminate].
  destruct (optimize_qehvi _ _ _ _ _ _ _ _ _ _) as [c|] eqn:Hopt; cbn [py_bind];
    [|discriminate].
  intros [= <- <-]. auto.
Qed.

(** What one pass through the loop body leaves behind: the surrogate is
    built and fitted in any case; either the batch had a success, and then
    one volume is recorded and the new rows are stacked under the old ones,
    or it had none, and then neither the dataset nor the record changes. *)
Lemma mobo_iteration_inv (st st' : locals) :
  iteration st = Return st' ->
  exists n,
    normalize standardize vocs ref (train_y st) (train_c st) (log st) = Return n /\
    fit_gpytorch_model (mkSingleTaskGP (train_x st) (train_outputs n)) = Return tt /\
    model st' = Some (mkSingleTaskGP (train_x st) (train_outputs n)) /\
    ((has_success st = true /\
      (exists v, report_volume is_non_dominated hv_compute n = Return v /\
                 hv_track st' = hv_track st ++ [v]) /\
      exists new_x new_y new_c,
        train_x st' = train_x st ++ new_x /\ train_y st' = train_y st ++ new_y /\
        train_c st' = train_c st ++ new_c)
     \/
     (has_success st = false /\ hv_track st' = hv_track st /\
      train_x st' = train_x st /\ train_y st' = train_y st /\ train_c st' = train_c st)).
Proof.
  unfold mobo_iteration, batch_has_success, iteration_batch.
  destruct (normalize _ _ _ _ _ _) as [n|] eqn:Hn; cbn [py_bind]; [|discriminate].
  destruct (propose _ _ _ _ _ _) as [[m candidates]|] eqn:Hp; cbn [py_bind snd];
    [|discriminate].
  apply propose_inv in Hp as (-> & Hfit & _).
  destruct (collect_results _ vocs) as [[[new_x new_y] new_c]|e] eqn:Hc.
  - destruct (report_volume _ _ _) as [v|] eqn:Hv; cbn [py_bind]; [|discriminate].
    intros [= <-]. exists n. cbn. split; [reflexivity|]. split; [exact Hfit|].
    split; [reflexivity|].
    left. apply collect_results_return in Hc as [Hne _].
    split; [by apply bool_decide_eq_true_2|].
    split; [exists v; auto|]. exists new_x, new_y, new_c. auto.
  - destruct (String.eqb (exn_class e) "NoValidResultsError") eqn:He; [|discriminate].
    intros [= <-]. exists n. cbn. split; [reflexivity|]. split; [exact Hfit|].
    split; [reflexivity|].
    right. apply String.eqb_eq in He.
    rewrite (collect_results_no_valid _ _ _ Hc He).
    split; [by apply bool_decide_eq_false_2; intros H; apply H|]. auto.
Qed.

(** C3, as amended.  A hypervolume is recorded on exactly those iterations
    whose batch produced at least one success: such an iteration appends one
    volume, and an iteration whose batch produced none goes on to the next
    one with the dataset and the record as they were.  So when a run of
    [n_steps] iterations ends, the recorded sequence has one entry per
    iteration with a success, which is at most [n_steps] entries. *)
Theorem hv_track_length (n_steps : nat) (st st' : locals) :
  loop n_steps st = Return st' ->
  length (hv_track st') = (length (hv_track st) + successful n_steps st)%nat /\
  (successful n_steps st <= n_steps)%nat /\
  forall s s1, iteration s = Return s1 ->
    if has_success s
    then exists v, hv_track s1 = hv_track s ++ [v]
    else hv_track s1 = hv_track s /\ train_x s1 = train_x s /\
         train_y s1 = train_y s /\ train_c s1 = train_c s.
Proof.
  intros Hloop.
  assert (Hcount : length (hv_track st') = (length (hv_track st) + successful n_steps st)%nat
                   /\ (successful n_steps st <= n_steps)%nat).
  { revert st Hloop. induction n_steps as [|n IH]; intros st; simpl.
    - intros [= <-]. split; lia.
    - destruct (iteration st) as [st1|] eqn:Hit; simpl; [|discriminate].
      intros Hloop. apply IH in Hloop as [Hlen Hle].
      apply mobo_iteration_inv in Hit
        as (nz & _ & _ & _ & [(Hs & (v & _ & Hhv) & _)|(Hs & Hhv & _)]);
        rewrite Hs; rewrite Hhv in Hlen.
      + rewrite length_app in Hlen. simpl in Hlen. split; lia.
      + split; lia. }
  destruct Hcount as [Hlen Hle]. split; [exact Hlen|]. split; [exact Hle|].
  intros s s1 Hit.
  apply mobo_iteration_inv in Hit
    as (nz & _ & _ & _ & [(Hs & (v & _ & Hhv) & _)|(Hs & Hhv & Hx & Hy & Hc)]);
    rewrite Hs; eauto.
Qed.

(** C6, as amended.  On every iteration the standardized version of the
    sign-corrected objective tensor is what the surrogate is fitted to
    (stacked with the corrected constraints); the hypervolume, when the
    iteration records one, is computed from the feasible Pareto rows of the
    sign-corrected tensor as it is, not standardized. *)
Theorem iteration_fit_and_volume (st st' : locals) :
  iteration st = Return st' ->
  exists n,
    normalize standardize vocs ref (train_y st) (train_c st) (log st) = Return n /\
    fit_gpytorch_model
      (mkSingleTaskGP (train_x st)
         (hstack (standardize (corrected_train_y n)) (corrected_train_c n))) = Return tt /\
    model st'
    = Some (mkSingleTaskGP (train_x st)
              (hstack (standardize (corrected_train_y n)) (corrected_train_c n))) /\
    ((exists v, volume_from is_non_dominated hv_compute (corrected_train_y n) n = Return v /\
                hv_track st' = hv_track st ++ [v])
     \/ hv_track st' = hv_track st).
Proof.
  intros Hit.
  apply mobo_iteration_inv in Hit as (n & Hn & Hfit & Hm & Hcase).
  exists n. split; [exact Hn|].
  apply normalize_inv in Hn as [_ Hout]. rewrite Hout in Hm, Hfit.
  split; [exact Hfit|]. split; [exact Hm|].
  destruct Hcase as [(_ & Hhv & _)|(_ & Hhv & _)]; [left | right]; exact Hhv.
Qed.

(** C7, as amended.  Once the acquisition function is built, it is maximized
    over the box [bounds] it was given, in raw design coordinates (the unit
    box is computed and not used), sequentially for the [batch_size]
    elements of the batch, and the candidates of the optimizer are returned
    as they are. *)
Theorem optimize_qehvi_raw_box (model : SingleTaskGP) (ty tc : tensor)
    (ref_point : list Q) (sampler batch_size num_restarts raw_samples : nat)
    (acq : qExpectedHypervolumeImprovement) :
  qehvi_acq_func model ty tc ref_point sampler = Return acq ->
  optimize_qehvi optimize_acqf model ty tc bounds ref_point sampler
                 batch_size num_restarts raw_samples
  = (r <~ optimize_acqf
            {| acq_function := acq;
               Mobo.bounds := bounds;
               q := batch_size;
               num_restarts := num_restarts;
               raw_samples := raw_samples;
               options := (5, 200, true)%nat;
               sequential := true |} ;;
     Return (fst r)).
Proof.
  intros Hacq. unfold optimize_qehvi. rewrite Hacq. cbn [py_bind].
  destruct (optimize_acqf _) as [[candidates values]|e]; reflexivity.
Qed.

End Driver.

(** ** Runs of the concrete instance *)

(** C2.  With two objective columns and one constraint column the
    acquisition function is built with two constraint functions, not one:
    the first reads the constraint column of a model output, the second
    reads the last objective column. *)
Theorem constraint_functions_not_per_column :
  let train_y := [[1; 2]]%Q in
  let train_c := [[3]]%Q in
  exists acq,
    qehvi_acq_func (mkSingleTaskGP [[0]]%Q (hstack train_y train_c))
                   train_y train_c [0; 0]%Q 128 = Return acq /\
    ncols train_c = 1%nat /\
    length (acq_constraints acq) = 2%nat /\
    forall o1 o2 c1 : Q,
      (fun f : list Q -> py Q => f [o1; o2; c1]) <$> acq_constraints acq
      = [Return c1; Return o2].
Proof. eexists. repeat split. Qed.

(** C5.  A constraint column whose direction is neither [LESS_THAN] nor
    [GREATER_THAN] keeps its raw values, with a warning; the [LESS_THAN]
    correction of the same column is [-(threshold - raw)]. *)
Theorem unknown_constraint_goal_leaves_column :
  correct_constraints [[3]]%Q 0 [("c", ("EQUAL_TO", 1%Q))] ([[3]]%Q, [])
  = Return ([[3]]%Q, [ConstraintGoalNotFound ("EQUAL_TO", 1%Q)])
  /\ correct_constraints [[3]]%Q 0 [("c", ("LESS_THAN", 1%Q))] ([[3]]%Q, [])
     = Return ([[(- (1 - 3))%Q]], [])
  /\ Qeq_bool 3 (- (1 - 3)) = false.
Proof. repeat split. Qed.

Lemma collect_results_successes_witness :
  collect_results Toy.batch Toy.vocs = Return ([[2%Q]], [[2%Q]], [[]]).
Proof.
  destruct (collect_results_successes Toy.batch Toy.vocs) as [H _].
  - apply Forall_cons. split; [|by apply Forall_nil].
    unfold complete. split; [|split]; intros k Hk.
    + apply list_elem_of_singleton in Hk as ->. eexists; reflexivity.
    + apply list_elem_of_singleton in Hk as ->. eexists; reflexivity.
    + by apply elem_of_nil in Hk.
  - apply H. discriminate.
Defined.

(** The claim of C3 fails on an iteration without a success: on the
    two-objective problem, with a step budget of one and a candidate whose
    evaluation raises, the loop ends with no hypervolume recorded. *)
Lemma hv_track_skips_failed_batch :
  exists st,
    Toy.mobo_locals 4 6 Toy.vocs2 [0; 0]%Q 1 128 5 (Some [[0]; [2]; [4]]%Q) = Return st /\
    length (hv_track st) <> 1%nat.
Proof. eexists. split; [vm_compute; reflexivity | discriminate]. Qed.

Lemma hv_track_length_witness :
  exists st',
    Toy.mobo_loop 4 6 Toy.vocs2 [0; 0]%Q 128 (get_bounds Toy.vocs2) 2 Toy.start
    = Return st' /\
    length (hv_track st') = 0%nat /\
    train_x st' = train_x Toy.start /\ train_y st' = train_y Toy.start /\
    train_c st' = train_c Toy.start.
Proof.
  destruct (Toy.mobo_loop 4 6 Toy.vocs2 [0; 0]%Q 128 (get_bounds Toy.vocs2) 2 Toy.start)
    as [st'|e] eqn:Hloop; [|vm_compute in Hloop; discriminate Hloop].
  exists st'. split; [reflexivity|].
  destruct (hv_track_length _ _ _ _ _ _ _ _ _ _ _ _ _ Hloop) as (Hlen & _ & _).
  split; [exact Hlen|].
  vm_compute in Hloop. injection Hloop as <-. repeat split.
Defined.

(** The claim of C6 fails on the hypervolume: on the two-objective problem
    with the observations (0, 8), (2, 6), (4, 4) the recorded volume is that
    of the sign-corrected tensor, 20, and differs from the volume of the
    standardized one, 0. *)
Lemma volume_not_from_standardized :
  exists n st' v w,
    normalize Toy.standardize Toy.vocs2 [0; 0]%Q (train_y Toy.start) (train_c Toy.start)
              (log Toy.start) = Return n /\
    tensor_eqb (standardized_train_y n) [[-1; 1]; [0; 0]; [1; -1]]%Q = true /\
    Toy.mobo_iteration 8 6 Toy.vocs2 [0; 0]%Q 128 (get_bounds Toy.vocs2) Toy.start
    = Return st' /\
    hv_track st' = [v] /\ Qeq_bool v 20 = true /\
    volume_from Toy.is_non_dominated Toy.hv_compute (standardized_train_y n) n = Return w /\
    Qeq_bool v w = false.
Proof.
  do 4 eexists. split; [vm_compute; reflexivity|].
  split; [vm_compute; reflexivity|].
  split; [vm_compute; reflexivity|].
  split; [reflexivity|].
  split; [vm_compute; reflexivity|].
  split; vm_compute; reflexivity.
Qed.

Lemma iteration_fit_and_volume_witness :
  exists n st',
    Toy.mobo_iteration 8 6 Toy.vocs2 [0; 0]%Q 128 (get_bounds Toy.vocs2) Toy.start
    = Return st' /\
    model st'
    = Some (mkSingleTaskGP (train_x Toy.start)
              (hstack (Toy.standardize (corrected_train_y n)) (corrected_train_c n))) /\
    ((exists v, volume_from Toy.is_non_dominated Toy.hv_compute (corrected_train_y n) n
                = Return v /\ hv_track st' = hv_track Toy.start ++ [v])
     \/ hv_track st' = hv_track Toy.start).
Proof.
  destruct (Toy.mobo_iteration 8 6 Toy.vocs2 [0; 0]%Q 128 (get_bounds Toy.vocs2) Toy.start)
    as [st'|e] eqn:Hit; [|vm_compute in Hit; discriminate Hit].
  destruct (iteration_fit_and_volume _ _ _ _ _ _ _ _ _ _ _ _ Hit) as (n & _ & _ & Hm & Hv).
  exists n, st'. auto.
Defined.

(** The claim of C7 fails on the box: on a two-objective problem over
    [[0, 8]] the candidate handed back is the optimizer's point for that
    box, while the optimizer's point for the unit box, converted to raw
    coordinates, is another. *)
Lemma optimize_qehvi_not_over_unit_box :
  let bounds := [[0]; [8]]%Q in
  let model := mkSingleTaskGP [[1]]%Q [[0; 8]]%Q in
  exists acq X Y values,
    qehvi_acq_func model [[0; 8]]%Q [[]] [0; 0]%Q 128 = Return acq /\
    tensor_eqb (standard_bounds bounds) [[0]; [1]]%Q = true /\
    optimize_qehvi (Toy.optimize_acqf 3) model [[0; 8]]%Q [[]] bounds [0; 0]%Q 128 1 20 1024
    = Return X /\
    Toy.optimize_acqf 3
      (mkOptimizeArgs acq (standard_bounds bounds) 1 20 1024 (5, 200, true)%nat true)
    = Return (Y, values) /\
    tensor_eqb X (unnormalize Y bounds) = false.
Proof.
  do 4 eexists. split; [reflexivity|].
  split; [vm_compute; reflexivity|].
  split; [vm_compute; reflexivity|].
  split; [vm_compute; reflexivity|].
  vm_compute; reflexivity.
Qed.

Lemma optimize_qehvi_raw_box_witness :
  let bounds := [[0]; [8]]%Q in
  let model := mkSingleTaskGP [[1]]%Q [[0; 8]]%Q in
  exists acq,
    qehvi_acq_func model [[0; 8]]%Q [[]] [0; 0]%Q 128 = Return acq /\
    optimize_qehvi (Toy.optimize_acqf 3) model [[0; 8]]%Q [[]] bounds [0; 0]%Q 128 1 20 1024
    = (r <~ Toy.optimize_acqf 3
              (mkOptimizeArgs acq bounds 1 20 1024 (5, 200, true)%nat true) ;;
       Return (fst r)).
Proof.
  eexists. split; [reflexivity|].
  apply (optimize_qehvi_raw_box (Toy.optimize_acqf 3)). reflexivity.
Defined.

End MoboProps.

(** * Further properties of [SequentialGenerator] *)

Module SequentialMore.
Import Sequential.

(** A lookup list raises a [KeyError] naming the first key the dict lacks. *)
Lemma py_map_getitem_missing (d : gmap string Q) (ks : list string) :
  (exists k, k ∈ ks /\ d !! k = None) ->
  exists k, k ∈ ks /\ d !! k = None /\ py_map (getitem d) ks = Raise (Exn "KeyError" k).
Proof.
  induction ks as [|k0 ks IH]; intros (k & Hin & Hk).
  - by apply elem_of_nil in Hin.
  - simpl. unfold getitem at 1. destruct (d !! k0) as [v|] eqn:H0; simpl.
    + apply elem_of_cons in Hin as [->|Hin]; [congruence|].
      destruct IH as (k' & Hin' & Hk' & Hr); [by exists k|].
      exists k'. rewrite Hr. split; [by right|]. auto.
    + exists k0. split; [by left|]. auto.
Qed.

Lemma allclose_row_of (c p : gmap string Q) (ks : list string) (rtol : Q) :
  allclose (row_of c ks) (row_of p ks) rtol 0 = true <->
  forall k, k ∈ ks ->
    (Qabs (default 0 (c !! k) - default 0 (p !! k)) <= rtol * Qabs (default 0 (p !! k)))%Q.
Proof.
  unfold allclose. induction ks as [|k ks IH]; simpl.
  - split; [|reflexivity]. intros _ k Hk. by apply elem_of_nil in Hk.
  - rewrite andb_true_iff, IH. unfold isclose. rewrite Qle_bool_iff, Qplus_0_l.
    split.
    + intros [H0 Hr] k' [->|Hk']%elem_of_cons; [exact H0 | by apply Hr].
    + intros H. split; [apply H; by left|]. intros k' Hk'. apply H. by right.
Qed.

Section More.

Context {Alg : Type}.
Variable _add_data : list (gmap string Q) -> M (Alg := Alg) unit.
Variable _set_data : list (gmap string Q) -> M (Alg := Alg) unit.
Variable _generate : bool -> M (Alg := Alg) (option (list (gmap string Q))).

(** X1.  [set_data] works once: after a call that returned, every further
    call raises [ValueError] and leaves the generator as it is, whatever the
    subclass hook does. *)
Theorem set_data_only_once (g g' : Generator Alg) (d d' : list (gmap string Q)) :
  set_data _set_data d g = (Return tt, g') ->
  set_data _set_data d' g'
  = (Raise (ValueError "Data has already been initialized for this generator."), g').
Proof.
  unfold set_data, bind, get, modify, raise.
  destruct (_data_set g); [discriminate|].
  destruct (_set_data d g) as [[[]|e] g1]; [|discriminate].
  intros [= <-]. reflexivity.
Qed.

(** X2.  [generate] with [n_candidates <= 1] (zero and negative numbers
    included) asks the hook for one candidate, with [first_gen] true exactly
    when the generator is not active yet; when the hook returns, the
    candidate is returned and stored as [_last_candidate], and the generator
    is active (the hook having left an active generator active). *)
Theorem generate_activates (g g1 : Generator Alg) (n_candidates : Z)
    (c : option (list (gmap string Q))) :
  (n_candidates <= 1)%Z ->
  _generate (negb (is_active g)) g = (Return c, g1) ->
  (is_active g = true -> is_active g1 = true) ->
  exists g2,
    generate _generate n_candidates g = (Return c, g2) /\
    is_active g2 = true /\ _last_candidate g2 = c /\
    data g2 = data g1 /\ _data_set g2 = _data_set g1 /\ vocs g2 = vocs g1 /\
    alg g2 = alg g1.
Proof.
  intros Hn Hgen Hact. unfold generate, bind, get, modify, ret.
  destruct (Z.ltb_spec 1 n_candidates) as [Hlt|_]; [lia|].
  destruct (is_active g) eqn:Ha; simpl in *; rewrite Hgen; eexists;
    (split; [reflexivity|]); simpl; repeat split; auto.
Qed.

(** X3.  When the hook raises, [generate] raises the same exception: the
    generator is not activated and [_last_candidate] is not overwritten (both
    are as the hook left them). *)
Theorem generate_hook_raises (g g1 : Generator Alg) (n_candidates : Z) (e : exn) :
  (n_candidates <= 1)%Z ->
  _generate (negb (is_active g)) g = (Raise e, g1) ->
  generate _generate n_candidates g = (Raise e, g1).
Proof.
  intros Hn Hgen. unfold generate, bind, get, modify, ret.
  destruct (Z.ltb_spec 1 n_candidates) as [Hlt|_]; [lia|].
  destruct (is_active g) eqn:Ha; simpl in *; rewrite Hgen; reflexivity.
Qed.

(** X4.  While active, [add_data] raises [SeqGeneratorError] when no
    candidate is stored or when more than one row is given; nothing is
    appended and the subclass hook does not run. *)
Theorem add_data_active_rejects (g : Generator Alg) (new_data : list (gmap string Q)) :
  is_active g = true ->
  _last_candidate g = None \/ (1 < length new_data)%nat ->
  exists msg, add_data _add_data new_data g = (Raise (SeqGeneratorError msg), g).
Proof.
  intros Ha Hcase. unfold add_data, bind, get, raise. rewrite Ha.
  destruct (_last_candidate g) as [c|] eqn:Hc.
  - destruct Hcase as [|Hlen]; [discriminate|].
    apply Nat.ltb_lt in Hlen. rewrite Hlen. eexists; reflexivity.
  - eexists; reflexivity.
Qed.

(** X5.  [validate_point] accepts a point exactly when every variable of the
    last candidate is within relative tolerance 1e-6 of the point's own value
    (no absolute tolerance); otherwise it raises [SeqGeneratorError].  Either
    way the generator is unchanged. *)
Theorem validate_point_accepts_iff (g : Generator Alg) c cs (point : gmap string Q) :
  _last_candidate g = Some (c :: cs) ->
  (forall k, k ∈ variable_names (vocs g) -> is_Some (c !! k)) ->
  (forall k, k ∈ variable_names (vocs g) -> is_Some (point !! k)) ->
  (validate_point point g = (Return tt, g) <->
   forall k, k ∈ variable_names (vocs g) ->
     (Qabs (default 0 (c !! k) - default 0 (point !! k))
      <= (1 # 1000000) * Qabs (default 0 (point !! k)))%Q) /\
  (validate_point point g = (Return tt, g) \/
   exists msg, validate_point point g = (Raise (SeqGeneratorError msg), g)).
Proof.
  intros Hc Hck Hpk. unfold validate_point, bind, get, lift.
  rewrite (py_map_ext _ (getitem c));
    [|intros ele; unfold last_candidate_0; rewrite Hc; reflexivity].
  change (fun ele : string => getitem point ele) with (getitem point).
  rewrite (py_map_getitem c _ Hck), (py_map_getitem point _ Hpk). cbn beta iota.
  rewrite <- allclose_row_of.
  destruct (allclose _ _ _ _); simpl; split.
  - split; auto.
  - by left.
  - split; intros H; discriminate H.
  - right. eexists; reflexivity.
Qed.

(** X6.  A point that lacks a variable makes [validate_point] raise a
    [KeyError], not a [SeqGeneratorError]. *)
Theorem validate_point_missing_variable (g : Generator Alg) c cs (point : gmap string Q) :
  _last_candidate g = Some (c :: cs) ->
  (forall k, k ∈ variable_names (vocs g) -> is_Some (c !! k)) ->
  (exists k, k ∈ variable_names (vocs g) /\ point !! k = None) ->
  exists k, k ∈ variable_names (vocs g) /\ point !! k = None /\
            validate_point point g = (Raise (Exn "KeyError" k), g).
Proof.
  intros Hc Hck Hmiss. unfold validate_point, bind, get, lift.
  rewrite (py_map_ext _ (getitem c));
    [|intros ele; unfold last_candidate_0; rewrite Hc; reflexivity].
  change (fun ele : string => getitem point ele) with (getitem point).
  rewrite (py_map_getitem c _ Hck). cbn beta iota.
  destruct (py_map_getitem_missing point _ Hmiss) as (k & Hin & Hk & Hr).
  exists k. rewrite Hr. auto.
Qed.

(** X7.  While active with a stored candidate that has a number (not NaN)
    for every variable, [add_data] with at most one row, an empty frame included, never
    raises the mismatch error: without being compared with the candidate,
    the rows go to the end of the dataset of the generator (they become the
    dataset when there was none), every other field staying as it was, and
    are handed to the hook on that generator. *)
Theorem add_data_active_single (g : Generator Alg) c cs (new_data : list (gmap string Q)) :
  is_active g = true ->
  _last_candidate g = Some (c :: cs) ->
  (forall k, k ∈ variable_names (vocs g) -> is_Some (c !! k)) ->
  (length new_data <= 1)%nat ->
  add_data _add_data new_data g
  = _add_data new_data
      (mkGenerator (vocs g)
                   (Some (match data g with
                          | Some d => d ++ new_data
                          | None => new_data
                          end))
                   true (Some (c :: cs)) (_data_set g) (alg g)).
Proof.
  intros Ha Hc Hck Hlen. unfold add_data, bind, get, modify, lift.
  rewrite Ha, Hc.
  destruct (Nat.ltb_spec 1 (length new_data)) as [Hlt|_]; [lia|].
  unfold last_candidate_0. rewrite Hc. simpl.
  rewrite (SequentialProps.validate_last_candidate g c cs Hc Hck).
  unfold with_data. destruct (data g); cbn; rewrite Ha, Hc; reflexivity.
Qed.

(** X8.  [_get_initial_point] raises its [ValueError] exactly when the
    generator has no dataset or an empty one. *)
Theorem initial_point_needs_data (g : Generator Alg) (class_name : string) :
  (exists msg, _get_initial_point class_name g = (Raise (ValueError msg), g)) <->
  data g = None \/ data g = Some [].
Proof.
  unfold _get_initial_point, bind, get, raise, lift, ret. split.
  - intros [msg H]. destruct (data g) as [[|row d]|]; auto.
    exfalso. simpl in H.
    unfold list_getitem in H. rewrite Nat.sub_0_r in H.
    destruct ((row :: d) !! length d) as [last_row|] eqn:Hl.
    + destruct (py_map (getitem last_row) (variable_names (vocs g))) as [x0|e] eqn:Hx.
      * destruct (py_map (getitem last_row) (objective_names (vocs g))) as [f0|e] eqn:Hf;
          [discriminate|].
        apply MoboProps.py_map_getitem_raise in Hf. inversion H; subst e. discriminate Hf.
      * apply MoboProps.py_map_getitem_raise in Hx. inversion H; subst e. discriminate Hx.
    + apply lookup_ge_None in Hl. simpl in Hl. lia.
  - intros [H|H]; rewrite H; eexists; reflexivity.
Qed.

(** X9.  The starting point is the last row of the history: after an
    [add_data] on an inactive generator whose hook keeps the dataset,
    [_get_initial_point] returns the variable and the objective values of the
    last row added. *)
Theorem initial_point_after_add_data (g g' : Generator Alg)
    (new_data : list (gmap string Q)) (row : gmap string Q) (class_name : string) :
  (forall g0, data (snd (_add_data new_data g0)) = data g0 /\
              vocs (snd (_add_data new_data g0)) = vocs g0) ->
  is_active g = false ->
  add_data _add_data new_data g = (Return tt, g') ->
  last new_data = Some row ->
  (forall k, k ∈ variable_names (vocs g) -> is_Some (row !! k)) ->
  (forall k, k ∈ objective_names (vocs g) -> is_Some (row !! k)) ->
  _get_initial_point class_name g'
  = (Return (row_of row (variable_names (vocs g)), row_of row (objective_names (vocs g))), g').
Proof.
  intros Hframe Ha Hadd Hlast Hx Hf.
  assert (Hd : exists d, data g' = Some (d ++ new_data) /\ vocs g' = vocs g).
  { revert Hadd. unfold add_data, bind, get, modify, ret. rewrite Ha.
    destruct (data g) as [d|] eqn:Hdg; intros Hadd.
    - destruct (Hframe (with_data (Some (d ++ new_data)) g)) as [H1 H2].
      rewrite Hadd in H1, H2. exists d. auto.
    - destruct (Hframe (with_data (Some new_data) g)) as [H1 H2].
      rewrite Hadd in H1, H2. exists []. auto. }
  destruct Hd as (d & Hd & Hv).
  assert (Hl : (d ++ new_data) !! (length (d ++ new_data) - 1)%nat = Some row).
  { rewrite <- Hlast, last_lookup, length_app.
    destruct new_data as [|r rest]; [discriminate|].
    rewrite lookup_app_r by (simpl; lia).
    f_equal. simpl. lia. }
  unfold _get_initial_point, bind, get, raise, lift, ret. rewrite Hd, Hv.
  destruct (Nat.eqb_spec (length (d ++ new_data)) 0) as [H0|_].
  { rewrite H0 in Hl. apply length_zero_iff_nil in H0. rewrite H0 in Hl. discriminate. }
  unfold list_getitem. rewrite Hl.
  rewrite (py_map_getitem row _ Hx), (py_map_getitem row _ Hf). reflexivity.
Qed.

(** X26.  [reset] lifts the lockout: on the generator [g'] that [reset]
    leaves (the reset hook leaving [is_active] alone, whether it returns or
    raises), [add_data] takes any rows, however many and whatever their
    values: the dataset becomes the rows of [g'] followed by the new ones
    (the new ones alone when [g'] has no dataset), every other field staying
    as in [g'], and the rows are handed to the hook on that generator. *)
Theorem reset_lifts_lockout (_reset : M (Alg := Alg) unit) (g : Generator Alg)
    (new_data : list (gmap string Q)) :
  (forall g0, is_active (snd (_reset g0)) = is_active g0) ->
  add_data _add_data new_data (snd (reset _reset g))
  = _add_data new_data
      (mkGenerator (vocs (snd (reset _reset g)))
                   (Some (match data (snd (reset _reset g)) with
                          | Some d => d ++ new_data
                          | None => new_data
                          end))
                   false
                   (_last_candidate (snd (reset _reset g)))
                   (_data_set (snd (reset _reset g)))
                   (alg (snd (reset _reset g)))).
Proof.
  intros Hframe.
  assert (Ha : is_active (snd (reset _reset g)) = false).
  { change (reset _reset g)
      with (_reset (with_last_candidate None (with_is_active false g))).
    by rewrite Hframe. }
  set (g' := snd (reset _reset g)) in *. clearbody g'.
  unfold add_data, bind, get, modify, ret, with_data. rewrite Ha.
  destruct (data g'); cbn; rewrite Ha; reflexivity.
Qed.

End More.

(** ** Runs of the instances *)

Lemma set_data_only_once_witness :
  Constant.set_data [ {[ "x" := 4%Q ]} ] (snd (Constant.set_data [] Constant.new))
  = (Raise (ValueError "Data has already been initialized for this generator."),
     snd (Constant.set_data [] Constant.new)).
Proof.
  apply (set_data_only_once Constant._set_data Constant.new _ [] [ {[ "x" := 4%Q ]} ]).
  reflexivity.
Defined.

Lemma generate_activates_witness :
  exists g2,
    Constant.generate 0 Constant.new = (Return (Some [ {[ "x" := 1%Q ]} ]), g2) /\
    is_active g2 = true /\ _last_candidate g2 = Some [ {[ "x" := 1%Q ]} ].
Proof.
  destruct (generate_activates Constant._generate Constant.new Constant.new 0
              (Some [ {[ "x" := 1%Q ]} ])) as (g2 & H1 & H2 & H3 & _).
  - lia.
  - reflexivity.
  - discriminate.
  - exists g2. auto.
Defined.

Lemma generate_hook_raises_witness :
  generate Base._generate 1 Constant.new
  = (Raise (Base.NotImplementedError
              "Sequential generators must implement _generate method."),
     Constant.new).
Proof.
  apply (generate_hook_raises Base._generate Constant.new Constant.new 1); [lia|reflexivity].
Defined.

Lemma add_data_active_rejects_witness :
  exists msg,
    Constant.add_data [ {[ "x" := 1%Q ]}; {[ "x" := 1%Q ]} ]
                      (snd (Constant.generate 1 Constant.new))
    = (Raise (SeqGeneratorError msg), snd (Constant.generate 1 Constant.new)).
Proof.
  apply (add_data_active_rejects Constant._add_data); [reflexivity|].
  right. simpl. lia.
Defined.

Lemma validate_point_accepts_iff_witness :
  validate_point (Alg := unit) {[ "x" := 1%Q ]} (snd (Constant.generate 1 Constant.new))
  = (Return tt, snd (Constant.generate 1 Constant.new)).
Proof.
  destruct (validate_point_accepts_iff (snd (Constant.generate 1 Constant.new))
              {[ "x" := 1%Q ]} [] {[ "x" := 1%Q ]}) as [[_ H] _].
  - reflexivity.
  - intros k Hk. apply list_elem_of_singleton in Hk as ->. eexists; reflexivity.
  - intros k Hk. apply list_elem_of_singleton in Hk as ->. eexists; reflexivity.
  - apply H. intros k Hk. apply list_elem_of_singleton in Hk as ->.
    vm_compute. discriminate.
Defined.

Lemma validate_point_missing_variable_witness :
  exists k,
    validate_point (Alg := unit) ∅ (snd (Constant.generate 1 Constant.new))
    = (Raise (Exn "KeyError" k), snd (Constant.generate 1 Constant.new)).
Proof.
  destruct (validate_point_missing_variable (snd (Constant.generate 1 Constant.new))
              {[ "x" := 1%Q ]} [] ∅) as (k & _ & _ & H).
  - reflexivity.
  - intros k Hk. apply list_elem_of_singleton in Hk as ->. eexists; reflexivity.
  - exists "x". split; [by left | reflexivity].
  - exists k. exact H.
Defined.

Lemma add_data_active_single_witness :
  Constant.add_data [ {[ "x" := 2%Q ]} ] (snd (Constant.generate 1 Constant.new))
  = (Return tt,
     mkGenerator (vocs Constant.new) (Some [ {[ "x" := 2%Q ]} ])
                 true (Some [ {[ "x" := 1%Q ]} ]) false tt).
Proof.
  unfold Constant.add_data.
  rewrite (add_data_active_single Constant._add_data
             (snd (Constant.generate 1 Constant.new)) {[ "x" := 1%Q ]} []
             [ {[ "x" := 2%Q ]} ]).
  - reflexivity.
  - reflexivity.
  - reflexivity.
  - intros k Hk. apply list_elem_of_singleton in Hk as ->. eexists; reflexivity.
  - simpl. lia.
Defined.

Lemma initial_point_after_add_data_witness :
  _get_initial_point "Constant"
    (snd (Constant.add_data [ {[ "x" := 5%Q; "f" := 2%Q ]}; {[ "x" := 7%Q; "f" := 3%Q ]} ]
                            Constant.new))
  = (Return (row_of {[ "x" := 7%Q; "f" := 3%Q ]} ["x"],
             row_of {[ "x" := 7%Q; "f" := 3%Q ]} ["f"]),
     snd (Constant.add_data [ {[ "x" := 5%Q; "f" := 2%Q ]}; {[ "x" := 7%Q; "f" := 3%Q ]} ]
                            Constant.new)).
Proof.
  apply (initial_point_after_add_data Constant._add_data Constant.new _
           [ {[ "x" := 5%Q; "f" := 2%Q ]}; {[ "x" := 7%Q; "f" := 3%Q ]} ]
           {[ "x" := 7%Q; "f" := 3%Q ]} "Constant").
  - intros g0. split; reflexivity.
  - reflexivity.
  - reflexivity.
  - reflexivity.
  - intros k Hk. apply list_elem_of_singleton in Hk as ->. eexists; reflexivity.
  - intros k Hk. apply list_elem_of_singleton in Hk as ->. eexists; reflexivity.
Defined.

Lemma reset_lifts_lockout_witness :
  Constant.add_data [ {[ "x" := 5%Q ]}; {[ "x" := 7%Q ]} ]
    (snd (Constant.reset (snd (Constant.generate 1 Constant.new))))
  = (Return tt,
     mkGenerator (vocs Constant.new) (Some [ {[ "x" := 5%Q ]}; {[ "x" := 7%Q ]} ])
                 false None false tt).
Proof.
  unfold Constant.add_data, Constant.reset.
  rewrite (reset_lifts_lockout Constant._add_data Constant._reset
             (snd (Constant.generate 1 Constant.new))
             [ {[ "x" := 5%Q ]}; {[ "x" := 7%Q ]} ]).
  - reflexivity.
  - intros g0. reflexivity.
Defined.

End SequentialMore.

(** * Further properties of [mobo.py] *)

Module MoboMore.
Import Mobo.

(** ** Gathering the results *)

Lemma foldl_snoc {A} (l acc : list A) :
  foldl (fun results fut => results ++ [fut]) acc l = acc ++ l.
Proof.
  revert acc. induction l as [|x l IH]; intros acc; simpl.
  - by rewrite app_nil_r.
  - rewrite IH, <- app_assoc. reflexivity.
Qed.

Lemma poll_fold (done_now : nat -> bool) (l : list (nat * result))
    (results : list result) (ii : nat) :
  foldl (fun acc (ix_fut : nat * result) =>
           if done_now (fst ix_fut)
           then (fst acc ++ [snd ix_fut], S (snd acc))
           else acc) (results, ii) l
  = (results ++ (snd <$> filter (fun ix_fut : nat * result => done_now (fst ix_fut) = true) l),
     (ii + length (snd <$> filter (fun ix_fut : nat * result => done_now (fst ix_fut) = true) l))%nat).
Proof.
  revert results ii. induction l as [|[ix fut] l IH]; intros results ii.
  - cbn. rewrite app_nil_r, Nat.add_0_r. reflexivity.
  - cbn [foldl fst snd]. destruct (done_now ix) eqn:Hd.
    + rewrite IH. rewrite filter_cons_True by exact Hd.
      rewrite fmap_cons. cbn [snd length].
      rewrite <- app_assoc. f_equal. lia.
    + rewrite IH. rewrite filter_cons_False; [reflexivity|].
      cbn [fst]. rewrite Hd. discriminate.
Qed.

Lemma poll_pass_spec (done_now : nat -> bool) (futures results : list result) (ii : nat) :
  poll_pass done_now futures (results, ii)
  = (results ++ done_results done_now futures,
     (ii + length (done_results done_now futures))%nat).
Proof. unfold poll_pass, done_results. apply poll_fold. Qed.

Lemma done_results_sublist (done_now : nat -> bool) (futures : list result) :
  done_results done_now futures `sublist_of` futures.
Proof.
  unfold done_results.
  transitivity (snd <$> zip (seq 0 (length futures)) futures).
  - apply fmap_sublist, sublist_filter.
  - rewrite snd_zip; [reflexivity|]. rewrite length_seq. lia.
Qed.

Lemma filter_all {A} (P : A -> Prop) `{!forall x, Decision (P x)} (l : list A) :
  Forall P l -> filter P l = l.
Proof.
  induction 1 as [|x l Hx _ IH]; [reflexivity|].
  rewrite filter_cons_True by exact Hx. by rewrite IH.
Qed.

Lemma done_results_all (done_now : nat -> bool) (futures : list result) :
  (forall ix, (ix < length futures)%nat -> done_now ix = true) ->
  done_results done_now futures = futures.
Proof.
  intros Hall. unfold done_results. rewrite filter_all.
  - rewrite snd_zip; [reflexivity|]. rewrite length_seq. lia.
  - apply Forall_forall. intros [ix fut] Hin. cbn [fst].
    apply elem_of_zip_l in Hin. apply elem_of_seq in Hin. apply Hall. lia.
Qed.

(** X11.  While the futures complete during the polling, [get_results] hands
    back, when it stops, at least [n_samples] results, each of them the
    result of one of the futures: none for an empty list of futures, and
    fewer than [2 * n_samples] otherwise.  It stops at the end of the first
    pass by which [n_samples] results have been appended, whether or not
    each future contributed. *)
Theorem get_results_polling_count (fuel : nat) (done : nat -> nat -> bool)
    (futures results : list result) :
  get_results_polling fuel done futures = Some results ->
  (length futures <= length results)%nat /\
  (futures <> [] -> (length results < 2 * length futures)%nat) /\
  (futures = [] -> results = []) /\
  (forall r, r ∈ results -> r ∈ futures).
Proof.
  intros Hget.
  assert (Hall : (length futures <= length results)%nat /\
                 (length results <= 2 * length futures - 1)%nat /\
                 (forall r, r ∈ results -> r ∈ futures)).
  { revert Hget.
  unfold get_results_polling.
  assert (Hloop : forall fuel pass acc,
    (length acc <= length futures - 1)%nat ->
    (forall r, r ∈ acc -> r ∈ futures) ->
    get_results_loop fuel pass done futures acc (S (length acc)) = Some results ->
    (length futures <= length results)%nat /\
    (length results <= 2 * length futures - 1)%nat /\
    (forall r, r ∈ results -> r ∈ futures)).
  { clear fuel. induction fuel as [|fuel IH]; intros pass acc Hlen Hin; [discriminate|].
    cbn [get_results_loop]. rewrite poll_pass_spec.
    pose proof (done_results_sublist (done pass) futures) as Hsub.
    pose proof (sublist_length _ _ Hsub) as Hsl.
    assert (Hin' : forall r, r ∈ acc ++ done_results (done pass) futures -> r ∈ futures).
    { intros r [Hr|Hr]%elem_of_app; [by apply Hin|].
      eapply (sublist_subseteq _ _ Hsub); exact Hr. }
    destruct (Nat.ltb_spec (length futures)
                (S (length acc) + length (done_results (done pass) futures))) as [Hlt|Hge].
    - intros [= <-]. rewrite length_app. repeat split; [lia | lia | exact Hin'].
    - intros Hrec.
      replace (S (length acc) + length (done_results (done pass) futures))%nat
        with (S (length (acc ++ done_results (done pass) futures))) in Hrec
        by (rewrite length_app; lia).
      apply IH in Hrec; [exact Hrec | rewrite length_app; lia | exact Hin']. }
  intros H. apply (Hloop fuel 0%nat []); [simpl; lia | | exact H].
  intros r Hr. by apply elem_of_nil in Hr.
  }
  destruct Hall as (Hlo & Hhi & Hin). split; [exact Hlo|]. split; [|split; [|exact Hin]].
  - intros Hne. destruct futures; [by destruct Hne|]. simpl in *. lia.
  - intros ->. destruct results as [|r rs]; [reflexivity|].
    exfalso. eapply elem_of_nil, (Hin r). by left.
Qed.

(** X12.  When every future is done at the first pass, the polling
    [get_results] stops after that pass with every result exactly once, in
    submission order. *)
Theorem get_results_polling_all_done (fuel : nat) (done : nat -> nat -> bool)
    (futures : list result) :
  (forall ix, (ix < length futures)%nat -> done 0%nat ix = true) ->
  get_results_polling (S fuel) done futures = Some futures.
Proof.
  intros Hall. unfold get_results_polling. cbn [get_results_loop].
  rewrite poll_pass_spec, (done_results_all _ _ Hall). cbn [app].
  destruct (Nat.ltb_spec (length futures) (1 + length futures)) as [_|Hge]; [reflexivity|lia].
Qed.

Lemma done_results_ext (d1 d2 : nat -> bool) (futures : list result) :
  (forall ix, d1 ix = d2 ix) -> done_results d1 futures = done_results d2 futures.
Proof.
  intros Hext. unfold done_results. f_equal.
  apply list_filter_iff. intros [ix fut]. cbn [fst]. by rewrite Hext.
Qed.

Lemma concat_replicate_snoc {A} (j : nat) (D : list A) :
  concat (replicate j D) ++ D = concat (replicate (S j) D).
Proof.
  induction j as [|j IH]; simpl.
  - by rewrite app_nil_r.
  - simpl in IH. rewrite <- app_assoc, IH. reflexivity.
Qed.

(** X13.  A future that is not done does not hold the loop back.  When the
    same futures answer [done] at every pass, and their results are [D],
    [get_results] stops after the first [k] passes that bring the count to
    [n_samples] and returns [k] copies of [D]: the futures that were not done
    are left out and the others are repeated. *)
Theorem get_results_polling_repeats (fuel k : nat) (done : nat -> nat -> bool)
    (done_now : nat -> bool) (futures : list result) :
  (forall pass ix, done pass ix = done_now ix) ->
  (1 <= k)%nat ->
  ((k - 1) * length (done_results done_now futures) < length futures)%nat ->
  (length futures <= k * length (done_results done_now futures))%nat ->
  (k <= fuel)%nat ->
  get_results_polling fuel done futures
  = Some (concat (replicate k (done_results done_now futures))).
Proof.
  intros Hconst Hk Hlo Hhi Hfuel. unfold get_results_polling.
  set (D := done_results done_now futures) in *.
  assert (Hloop : forall m j fuel pass,
    (j + S m = k)%nat -> (S m <= fuel)%nat ->
    get_results_loop fuel pass done futures (concat (replicate j D)) (1 + j * length D)
    = Some (concat (replicate k D))).
  { clear fuel Hfuel. induction m as [|m IH]; intros j fuel pass Hj Hf;
      (destruct fuel as [|fuel]; [lia|]);
      cbn [get_results_loop]; rewrite poll_pass_spec;
      rewrite (done_results_ext (done pass) done_now futures (Hconst pass));
      fold D; rewrite concat_replicate_snoc.
    - replace (S j) with k by lia.
      destruct (Nat.ltb_spec (length futures) (1 + j * length D + length D)) as [_|Hge];
        [reflexivity|].
      exfalso. replace k with (S j) in Hhi by lia. simpl in Hhi. lia.
    - destruct (Nat.ltb_spec (length futures) (1 + j * length D + length D)) as [Hlt|_].
      + exfalso.
        assert (S j * length D <= (k - 1) * length D)%nat
          by (apply Nat.mul_le_mono_r; lia).
        simpl in *. lia.
      + replace (1 + j * length D + length D)%nat with (1 + S j * length D)%nat
          by (simpl; lia).
        apply IH; lia. }
  apply (Hloop (k - 1)%nat 0%nat fuel 0%nat); lia.
Qed.

(** ** Collecting the results *)

Lemma py_map_getitem_return (d : gmap string Q) (ks : list string) (v : list Q) :
  py_map (getitem d) ks = Return v -> forall k, k ∈ ks -> is_Some (d !! k).
Proof.
  revert v. induction ks as [|k0 ks IH]; intros v H k Hk.
  - by apply elem_of_nil in Hk.
  - simpl in H. unfold getitem at 1 in H.
    destruct (d !! k0) as [x|] eqn:H0; simpl in H; [|discriminate].
    destruct (py_map (getitem d) ks) as [v'|] eqn:Hr; simpl in H; [|discriminate].
    apply elem_of_cons in Hk as [->|Hk]; [by rewrite H0 | by eapply IH].
Qed.

Lemma collect_loop_return_complete (vocs : VOCS) (results : list result) acc acc' :
  collect_loop vocs results acc = Return acc' ->
  Forall (complete vocs) (successes results).
Proof.
  revert acc. induction results as [|r rest IH]; intros [[[tx ty] tc] b]; simpl.
  - intros _. apply Forall_nil_2.
  - rewrite MoboProps.successes_cons. destruct (error r); simpl; [by apply IH|].
    destruct (py_map (getitem (inputs r)) _) eqn:Hx; simpl; [|discriminate].
    destruct (py_map (getitem (outputs r)) (keys (objectives vocs))) eqn:Hy; simpl;
      [|discriminate].
    destruct (py_map (getitem (outputs r)) (keys (constraints vocs))) eqn:Hc; simpl;
      [|discriminate].
    intros H. apply Forall_cons_2; [|by eapply IH].
    split; [|split]; eapply py_map_getitem_return; eassumption.
Qed.

Lemma complete_not_lacks (vocs : VOCS) (r : result) :
  complete vocs r -> lacks vocs r -> False.
Proof.
  intros (Hx & Hy & Hc) [(k & Hk & Hn)|[(k & Hk & Hn)|(k & Hk & Hn)]];
    [destruct (Hx k Hk) as [v Hv] | destruct (Hy k Hk) as [v Hv]
     | destruct (Hc k Hk) as [v Hv]]; congruence.
Qed.

(** X14.  One successful outcome that lacks a variable in its inputs, or an
    objective or a constraint in its outputs, makes [collect_results] raise a
    [KeyError], whatever the other outcomes are: the batch is lost, and the
    error is not the [NoValidResultsError] that the loop recovers from. *)
Theorem collect_results_incomplete_success (results : list result) (vocs : VOCS) :
  Exists (lacks vocs) (successes results) ->
  exists e, collect_results results vocs = Raise e /\ exn_class e = "KeyError".
Proof.
  intros Hex. unfold collect_results.
  destruct (collect_loop vocs results _) as [acc|e] eqn:Hl; simpl.
  - exfalso. apply collect_loop_return_complete in Hl.
    apply Exists_exists in Hex as (r & Hin & Hlack).
    eapply complete_not_lacks; [|exact Hlack].
    eapply Forall_forall; eassumption.
  - exists e. split; [reflexivity|]. by eapply MoboProps.collect_loop_raise.
Qed.

(** [dict(zip(names, x))] read back under the names is [x]. *)
Lemma row_of_zip (ks : list string) (x : list Q) :
  NoDup ks -> length x = length ks ->
  row_of (list_to_map (zip ks x)) ks = x.
Proof.
  intros Hnd. revert x. induction Hnd as [|k ks Hk Hnd IH]; intros [|v x] Hlen;
    try discriminate; [reflexivity|].
  cbn [zip zip_with]. rewrite list_to_map_cons. unfold row_of in *.
  rewrite fmap_cons, lookup_insert_eq. cbn [default]. f_equal.
  transitivity ((fun k' => default 0%Q (list_to_map (M := gmap string Q) (zip ks x) !! k'))
                <$> ks); [|apply IH; simpl in Hlen; lia].
  apply list_fmap_ext. intros i k' Hi.
  rewrite lookup_insert_ne; [reflexivity|].
  intros ->. apply Hk. eapply list_elem_of_lookup_2; eassumption.
Qed.

Lemma filter_fmap {A B} (P : B -> Prop) `{!forall y, Decision (P y)} (f : A -> B)
    (l : list A) :
  filter P (f <$> l) = f <$> filter (fun x => P (f x)) l.
Proof.
  induction l as [|x l IH]; [reflexivity|].
  rewrite fmap_cons. destruct (decide (P (f x))) as [Hp|Hp].
  - rewrite !filter_cons_True by exact Hp. by rewrite fmap_cons, IH.
  - rewrite !filter_cons_False by exact Hp. exact IH.
Qed.

Section Batch.

Variable evaluate_f : gmap string Q -> py (gmap string Q).

Lemma sampler_evaluate_inputs (i : gmap string Q) :
  inputs (sampler_evaluate i evaluate_f) = i.
Proof. unfold sampler_evaluate. by destruct (evaluate_f i). Qed.

(** X15.  The training inputs an evaluated batch contributes are exactly the
    submitted points whose evaluation returned, unchanged and in submission
    order: the values survive the trip through the dict keyed by the
    variable names. *)
Theorem collected_inputs_are_submitted (vocs : VOCS) (xs new_x new_y new_c : tensor) :
  NoDup (keys (variables vocs)) ->
  Forall (fun x : list Q => length x = length (variables vocs)) xs ->
  collect_results (evaluate_batch evaluate_f vocs xs) vocs = Return (new_x, new_y, new_c) ->
  new_x = filter (fun x => evaluated_ok evaluate_f vocs x = true) xs.
Proof.
  intros Hnd Hlen Hc.
  assert (Hall : Forall (complete vocs) (successes (evaluate_batch evaluate_f vocs xs))).
  { revert Hc. unfold collect_results.
    destruct (collect_loop vocs _ _) as [acc|e] eqn:Hl; simpl; [|discriminate].
    intros _. by eapply collect_loop_return_complete. }
  revert Hc. unfold collect_results.
  rewrite (MoboProps.collect_loop_complete vocs _ [] [] [] false Hall). simpl.
  destruct (bool_decide _); simpl; [|discriminate].
  intros [= <- _ _].
  unfold evaluate_batch, get_results, successes. rewrite foldl_snoc. cbn [app].
  rewrite filter_fmap, <- list_fmap_compose.
  erewrite (list_filter_iff _ (fun x => evaluated_ok evaluate_f vocs x = true)).
  - rewrite <- (list_fmap_id (filter _ xs)) at 2.
    apply list_fmap_ext. intros i x Hi. cbn.
    rewrite sampler_evaluate_inputs. apply row_of_zip; [exact Hnd|].
    apply list_elem_of_lookup_2, list_elem_of_filter in Hi as [_ Hin].
    rewrite (proj1 (Forall_forall _ _) Hlen x Hin).
    unfold keys. by rewrite length_fmap.
  - intros x. unfold evaluated_ok. cbn beta.
    destruct (error _); cbn [negb]; split; congruence.
Qed.

End Batch.

(** ** The sign corrections *)

Lemma py_index_nat {A} (l : list A) (k : nat) (x : A) :
  l !! k = Some x -> py_index l (Z.of_nat k) = Return x.
Proof.
  intros Hk. pose proof (lookup_lt_Some _ _ _ Hk) as Hlt. unfold py_index.
  destruct (Z.leb_spec 0 (Z.of_nat k)) as [_|?]; [|lia].
  destruct (Z.ltb_spec (Z.of_nat k) (Z.of_nat (length l))) as [_|?]; [|lia].
  cbn [andb]. rewrite Nat2Z.id. unfold list_getitem. by rewrite Hk.
Qed.

Lemma py_index_nat_return {A} (l : list A) (k : nat) (x : A) :
  py_index l (Z.of_nat k) = Return x -> (k < length l)%nat.
Proof.
  unfold py_index.
  destruct (Z.leb_spec 0 (Z.of_nat k)) as [_|?]; [|lia].
  destruct (Z.ltb_spec (Z.of_nat k) (Z.of_nat (length l))) as [?|?]; [lia|].
  cbn [andb]. destruct (Z.ltb_spec (Z.of_nat k) 0) as [?|_]; [lia|].
  rewrite andb_false_r. discriminate.
Qed.

Lemma py_index_raise {A} (l : list A) (i : Z) (e : exn) :
  py_index l i = Raise e -> exn_class e = "IndexError".
Proof.
  unfold py_index, list_getitem.
  destruct (_ && _); [destruct (l !! _); [discriminate | by intros [= <-]]|].
  destruct (_ && _); [destruct (l !! _); [discriminate | by intros [= <-]]|].
  by intros [= <-].
Qed.

Lemma py_map_raise {A B} (f : A -> py B) (xs : list A) (e : exn) :
  py_map f xs = Raise e -> exists x, x ∈ xs /\ f x = Raise e.
Proof.
  induction xs as [|x xs IH]; simpl; [discriminate|].
  destruct (f x) as [y|e'] eqn:Hx; simpl.
  - destruct (py_map f xs) as [ys|e'] eqn:Hr; simpl; [discriminate|].
    intros [= <-]. destruct IH as (x' & Hin & Hx'); [reflexivity|].
    exists x'. split; [by right | exact Hx'].
  - intros [= <-]. exists x. split; [by left | exact Hx].
Qed.

Lemma col_raise (t : tensor) (k : nat) (e : exn) :
  col t k = Raise e -> exn_class e = "IndexError".
Proof.
  intros H. apply py_map_raise in H as (row & _ & H). by eapply py_index_raise.
Qed.

Lemma col_spec (t : tensor) (k : nat) :
  Forall (fun row : list Q => (k < length row)%nat) t ->
  col t k = Return ((fun row : list Q => default 0%Q (row !! k)) <$> t).
Proof.
  unfold col. induction 1 as [|row t Hrow _ IH]; [reflexivity|].
  simpl. destruct (lookup_lt_is_Some_2 _ _ Hrow) as [x Hx].
  rewrite (py_index_nat _ _ _ Hx), IH, Hx. reflexivity.
Qed.

Lemma zip_with_fmap_diag {A B C D} (h : B -> C -> D) (g1 : A -> B) (g2 : A -> C)
    (l : list A) :
  zip_with h (g1 <$> l) (g2 <$> l) = (fun x => h (g1 x) (g2 x)) <$> l.
Proof.
  induction l as [|x l IH]; [reflexivity|].
  rewrite !fmap_cons. cbn [zip_with]. by rewrite IH.
Qed.

Lemma set_col_fmap (t : tensor) (G : list Q -> list Q) (f : Q -> Q) (k : nat) :
  set_col (G <$> t) k (f <$> ((fun row : list Q => default 0%Q (row !! k)) <$> t))
  = (fun row : list Q => <[k := f (default 0%Q (row !! k))]> (G row)) <$> t.
Proof.
  unfold set_col.
  rewrite <- (list_fmap_compose (fun row : list Q => default 0%Q (row !! k)) f t).
  apply (zip_with_fmap_diag (fun (row : list Q) (x : Q) => <[k := x]> row) G).
Qed.

(** Column by column the raw values between [pre] and [post] are replaced by
    their corrections. *)
Lemma fold_cols_spec (upds : list (option (Q -> Q))) (pre pre' mid post : list Q) :
  length pre' = length pre -> length mid = length upds ->
  fold_cols upds (length pre) (pre ++ mid ++ post) (pre' ++ mid ++ post)
  = pre' ++ zip_with apply_update upds mid ++ post.
Proof.
  revert pre pre' mid. induction upds as [|u upds IH]; intros pre pre' mid Hpre Hmid.
  - destruct mid; [reflexivity | discriminate].
  - destruct mid as [|x mid]; [discriminate|]. cbn [fold_cols zip_with].
    assert (Hraw : (pre ++ (x :: mid) ++ post) !! length pre = Some x)
      by (by apply list_lookup_middle).
    rewrite Hraw. cbn [default from_option id].
    assert (Hacc : match u with
                   | Some f => <[length pre := f x]> (pre' ++ (x :: mid) ++ post)
                   | None => pre' ++ (x :: mid) ++ post
                   end = (pre' ++ [apply_update u x]) ++ mid ++ post).
    { destruct u as [f|]; cbn [apply_update].
      - rewrite <- Hpre, <- (Nat.add_0_r (length pre')), insert_app_r.
        cbn. by rewrite <- app_assoc.
      - cbn. by rewrite <- app_assoc. }
    rewrite Hacc.
    replace (pre ++ (x :: mid) ++ post) with ((pre ++ [x]) ++ mid ++ post)
      by (cbn; by rewrite <- app_assoc).
    replace (S (length pre)) with (length (pre ++ [x]))
      by (rewrite length_app; simpl; lia).
    rewrite IH.
    + cbn. by rewrite <- app_assoc.
    + rewrite !length_app. simpl. lia.
    + simpl in Hmid. lia.
Qed.

Lemma fold_cols_row (upds : list (option (Q -> Q))) (row : list Q) :
  length row = length upds ->
  fold_cols upds 0 row row = zip_with apply_update upds row.
Proof.
  intros Hlen.
  pose proof (fold_cols_spec upds [] [] row [] eq_refl) as H.
  cbn in H. rewrite !app_nil_r in H. by apply H.
Qed.

Lemma constraint_warnings_cons (c : string * (string * Q))
    (cons : list (string * (string * Q))) :
  constraint_warnings (c :: cons)
  = (if String.eqb (fst (snd c)) "GREATER_THAN" then []
     else if String.eqb (fst (snd c)) "LESS_THAN" then []
     else [ConstraintGoalNotFound (snd c)]) ++ constraint_warnings cons.
Proof.
  unfold constraint_warnings. cbn.
  destruct (String.eqb (fst (snd c)) "GREATER_THAN"); [reflexivity|].
  destruct (String.eqb (fst (snd c)) "LESS_THAN"); reflexivity.
Qed.

Lemma correct_constraints_fold (train_c : tensor) (cons : list (string * (string * Q)))
    (k : nat) (G : list Q -> list Q) (log : list warning) :
  Forall (fun row : list Q => (k + length cons <= length row)%nat) train_c ->
  correct_constraints train_c k cons (G <$> train_c, log)
  = Return ((fun row : list Q => fold_cols (constraint_update <$> cons) k row (G row))
              <$> train_c,
            log ++ constraint_warnings cons).
Proof.
  revert k G log. induction cons as [|[name goal] cons IH]; intros k G log Hlen.
  - cbn. by rewrite app_nil_r.
  - rewrite constraint_warnings_cons, fmap_cons.
    cbn [correct_constraints fold_cols fst snd].
    assert (Hk : Forall (fun row : list Q => (k < length row)%nat) train_c).
    { eapply Forall_impl; [exact Hlen|]. intros row. cbn. lia. }
    assert (Hk' : Forall (fun row : list Q => (S k + length cons <= length row)%nat) train_c).
    { eapply Forall_impl; [exact Hlen|]. intros row. cbn. lia. }
    destruct (String.eqb (fst goal) "GREATER_THAN") eqn:Hgt.
    { replace (constraint_update (name, goal)) with (Some (fun x => (snd goal - x)%Q))
        by (unfold constraint_update; cbn [fst snd]; by rewrite Hgt).
      rewrite (col_spec _ _ Hk). cbn [py_bind]. rewrite set_col_fmap.
      exact (IH (S k) _ log Hk'). }
    destruct (String.eqb (fst goal) "LESS_THAN") eqn:Hlt.
    { replace (constraint_update (name, goal)) with (Some (fun x => (- (snd goal - x))%Q))
        by (unfold constraint_update; cbn [fst snd]; by rewrite Hgt, Hlt).
      rewrite (col_spec _ _ Hk). cbn [py_bind]. rewrite set_col_fmap.
      exact (IH (S k) _ log Hk'). }
    replace (constraint_update (name, goal)) with (@None (Q -> Q))
      by (unfold constraint_update; cbn [fst snd]; by rewrite Hgt, Hlt).
    rewrite (IH (S k) G _ Hk'). by rewrite <- app_assoc.
Qed.

Lemma corrected_le_0 (goal : string * Q) (c : Q) :
  Qle_bool (corrected_constraint goal c) 0 = satisfied goal c.
Proof.
  unfold corrected_constraint, satisfied.
  destruct (String.eqb (fst goal) "GREATER_THAN");
    [|destruct (String.eqb (fst goal) "LESS_THAN"); [|reflexivity]];
    apply eq_true_iff_eq; rewrite !Qle_bool_iff; split; intros; lra.
Qed.

(** X16.  On a constraint tensor with one column per constraint, the
    correction does not raise; each value becomes [threshold - raw] under
    [GREATER_THAN], [-(threshold - raw)] under [LESS_THAN], and stays raw
    under any other direction, which is warned about.  A row is then feasible
    (all corrected values [<= 0]) exactly when each raw value is at least its
    threshold under [GREATER_THAN], at most its threshold under [LESS_THAN],
    and at most [0] under another direction. *)
Theorem correct_constraints_feasible (train_c : tensor)
    (cons : list (string * (string * Q))) (log : list warning) :
  Forall (fun row : list Q => length row = length cons) train_c ->
  correct_constraints train_c 0 cons (train_c, log)
  = Return ((fun row : list Q => zip_with corrected_constraint (snd <$> cons) row)
              <$> train_c,
            log ++ constraint_warnings cons)
  /\ all_le_0 ((fun row : list Q => zip_with corrected_constraint (snd <$> cons) row)
                 <$> train_c)
     = (fun row : list Q =>
          forallb (fun gc : (string * Q) * Q => satisfied (fst gc) (snd gc))
                  (zip (snd <$> cons) row)) <$> train_c.
Proof.
  intros Hlen. split.
  - rewrite <- (list_fmap_id train_c) at 2.
    rewrite correct_constraints_fold
      by (eapply Forall_impl; [exact Hlen|]; intros row; cbn; lia).
    f_equal. f_equal. apply Forall_fmap_ext_1.
    eapply Forall_impl; [exact Hlen|]. intros row Hrow. cbn [id].
    rewrite fold_cols_row by (by rewrite length_fmap).
    rewrite zip_with_fmap_l, zip_with_fmap_l. apply zip_with_ext; [|done..].
    intros [name goal] c. unfold constraint_update, corrected_constraint. cbn [snd].
    destruct (String.eqb (fst goal) "GREATER_THAN"); [reflexivity|].
    destruct (String.eqb (fst goal) "LESS_THAN"); reflexivity.
  - unfold all_le_0. rewrite <- list_fmap_compose. apply list_fmap_ext.
    intros _ row _. cbn. generalize (snd <$> cons). clear.
    intros goals. revert row. induction goals as [|g goals IH]; intros [|c row];
      try reflexivity.
    cbn. rewrite corrected_le_0. f_equal. apply IH.
Qed.

Lemma objective_warnings_cons (o : string * string) (objs : list (string * string)) :
  objective_warnings (o :: objs)
  = (if String.eqb (snd o) "MINIMIZE" then []
     else if String.eqb (snd o) "MAXIMIZE" then []
     else [ObjectiveGoalNotFound (snd o)]) ++ objective_warnings objs.
Proof.
  unfold objective_warnings. cbn.
  destruct (String.eqb (snd o) "MINIMIZE"); [reflexivity|].
  destruct (String.eqb (snd o) "MAXIMIZE"); reflexivity.
Qed.

Lemma correct_objectives_fold (train_y : tensor) (ref : list Q)
    (objs : list (string * string)) (k : nat) (G : list Q -> list Q) (R : list Q)
    (log : list warning) :
  Forall (fun row : list Q => (k + length objs <= length row)%nat) train_y ->
  (k + length objs <= length ref)%nat ->
  correct_objectives train_y ref k objs (G <$> train_y, R, log)
  = Return ((fun row : list Q => fold_cols (objective_update <$> objs) k row (G row))
              <$> train_y,
            fold_cols (objective_update <$> objs) k ref R,
            log ++ objective_warnings objs).
Proof.
  revert k G R log. induction objs as [|[name goal] objs IH]; intros k G R log Hlen Href.
  - cbn. by rewrite app_nil_r.
  - rewrite objective_warnings_cons, fmap_cons.
    cbn [correct_objectives fold_cols fst snd].
    assert (Hk : Forall (fun row : list Q => (k < length row)%nat) train_y).
    { eapply Forall_impl; [exact Hlen|]. intros row. cbn. lia. }
    assert (Hk' : Forall (fun row : list Q => (S k + length objs <= length row)%nat) train_y).
    { eapply Forall_impl; [exact Hlen|]. intros row. cbn. lia. }
    assert (Href' : (S k + length objs <= length ref)%nat) by (cbn in Href; lia).
    destruct (String.eqb goal "MINIMIZE") eqn:Hmin.
    { replace (objective_update (name, goal)) with (Some Qopp)
        by (unfold objective_update; cbn [snd]; by rewrite Hmin).
      rewrite (col_spec _ _ Hk). cbn [py_bind].
      destruct (lookup_lt_is_Some_2 ref k) as [r Hr]; [cbn in Href; lia|].
      rewrite (py_index_nat _ _ _ Hr), Hr. cbn [py_bind default from_option id].
      rewrite set_col_fmap. exact (IH (S k) _ _ log Hk' Href'). }
    replace (objective_update (name, goal)) with (@None (Q -> Q))
      by (unfold objective_update; cbn [snd]; by rewrite Hmin).
    destruct (String.eqb goal "MAXIMIZE").
    { exact (IH (S k) G R log Hk' Href'). }
    rewrite (IH (S k) G R _ Hk' Href'). by rewrite <- app_assoc.
Qed.

Lemma objective_update_apply (objs : list (string * string)) (row : list Q) :
  zip_with apply_update (objective_update <$> objs) row
  = zip_with corrected_objective (snd <$> objs) row.
Proof.
  rewrite !zip_with_fmap_l. apply zip_with_ext; [|done..].
  intros [name goal] y. unfold objective_update, corrected_objective. cbn [snd].
  by destruct (String.eqb goal "MINIMIZE").
Qed.

(** X17.  On an objective tensor with one column per objective and a
    reference point with one entry per objective, the correction does not
    raise: under [MINIMIZE] a column and its reference entry are negated,
    under any other goal they are left as they are, and every goal that is
    neither [MINIMIZE] nor [MAXIMIZE] is warned about, in order. *)
Theorem correct_objectives_signs (train_y : tensor) (ref : list Q)
    (objs : list (string * string)) (log : list warning) :
  Forall (fun row : list Q => length row = length objs) train_y ->
  length ref = length objs ->
  correct_objectives train_y ref 0 objs (train_y, ref, log)
  = Return ((fun row : list Q => zip_with corrected_objective (snd <$> objs) row)
              <$> train_y,
            zip_with corrected_objective (snd <$> objs) ref,
            log ++ objective_warnings objs).
Proof.
  intros Hlen Href.
  rewrite <- (list_fmap_id train_y) at 2.
  rewrite correct_objectives_fold;
    [|eapply Forall_impl; [exact Hlen|]; intros row; cbn; lia | cbn; lia].
  rewrite (fold_cols_row _ ref) by (by rewrite length_fmap).
  rewrite objective_update_apply.
  f_equal. f_equal. f_equal. apply Forall_fmap_ext_1.
  eapply Forall_impl; [exact Hlen|]. intros row Hrow. cbn [id].
  rewrite fold_cols_row by (by rewrite length_fmap).
  apply objective_update_apply.
Qed.

Lemma correct_objectives_raise (train_y : tensor) (ref : list Q)
    (objs : list (string * string)) (k : nat) acc (e : exn) :
  correct_objectives train_y ref k objs acc = Raise e -> exn_class e = "IndexError".
Proof.
  revert k acc. induction objs as [|[name goal] objs IH]; intros k [[cy cr] l];
    cbn [correct_objectives]; [discriminate|].
  destruct (String.eqb goal "MINIMIZE").
  - destruct (col train_y k) as [y|e'] eqn:Hc; cbn [py_bind];
      [|intros [= <-]; by eapply col_raise].
    destruct (py_index ref (Z.of_nat k)) as [r|e'] eqn:Hr; cbn [py_bind];
      [by apply IH | intros [= <-]; by eapply py_index_raise].
  - destruct (String.eqb goal "MAXIMIZE"); by apply IH.
Qed.

Lemma correct_objectives_return_ref (train_y : tensor) (ref : list Q)
    (objs : list (string * string)) (k : nat) acc acc' :
  correct_objectives train_y ref k objs acc = Return acc' ->
  forall i name, objs !! i = Some (name, "MINIMIZE") -> (k + i < length ref)%nat.
Proof.
  revert k acc. induction objs as [|[name0 goal] objs IH]; intros k [[cy cr] l] H i name Hi;
    [discriminate|].
  cbn [correct_objectives] in H. destruct i as [|i]; cbn in Hi.
  - injection Hi as -> ->. cbn in H.
    destruct (col train_y k) as [y|]; cbn [py_bind] in H; [|discriminate].
    destruct (py_index ref (Z.of_nat k)) as [r|] eqn:Hr; cbn [py_bind] in H; [|discriminate].
    apply py_index_nat_return in Hr. lia.
  - assert (Hrec : exists acc1, correct_objectives train_y ref (S k) objs acc1 = Return acc').
    { destruct (String.eqb goal "MINIMIZE").
      - destruct (col train_y k) as [y|]; cbn [py_bind] in H; [|discriminate].
        destruct (py_index ref (Z.of_nat k)) as [r|]; cbn [py_bind] in H; [|discriminate].
        eexists; exact H.
      - destruct (String.eqb goal "MAXIMIZE"); eexists; exact H. }
    destruct Hrec as [acc1 Hrec].
    pose proof (IH _ _ Hrec i name Hi). lia.
Qed.

(** X18.  The length of the reference point is not checked beforehand: a
    [MINIMIZE] objective whose column index is beyond the reference point
    makes the correction raise an [IndexError]. *)
Theorem correct_objectives_short_ref (train_y : tensor) (ref : list Q)
    (objs : list (string * string)) (log : list warning) (i : nat) (name : string) :
  objs !! i = Some (name, "MINIMIZE") ->
  (length ref <= i)%nat ->
  exists e, correct_objectives train_y ref 0 objs (train_y, ref, log) = Raise e /\
            exn_class e = "IndexError".
Proof.
  intros Hi Hshort.
  destruct (correct_objectives train_y ref 0 objs (train_y, ref, log)) as [acc'|e] eqn:H.
  - pose proof (correct_objectives_return_ref _ _ _ _ _ _ H i name Hi). lia.
  - exists e. split; [reflexivity|]. by eapply correct_objectives_raise.
Qed.

Lemma correct_constraints_raise (train_c : tensor)
    (cons : list (string * (string * Q))) (k : nat) acc (e : exn) :
  correct_constraints train_c k cons acc = Raise e -> exn_class e = "IndexError".
Proof.
  revert k acc. induction cons as [|[name goal] cons IH]; intros k [cc l];
    cbn [correct_constraints]; [discriminate|].
  destruct (String.eqb (fst goal) "GREATER_THAN").
  - destruct (col train_c k) as [c|e'] eqn:Hc; cbn [py_bind];
      [by apply IH | intros [= <-]; by eapply col_raise].
  - destruct (String.eqb (fst goal) "LESS_THAN"); [|by apply IH].
    destruct (col train_c k) as [c|e'] eqn:Hc; cbn [py_bind];
      [by apply IH | intros [= <-]; by eapply col_raise].
Qed.

Lemma correct_objectives_log (train_y : tensor) (ref : list Q)
    (objs : list (string * string)) (k : nat) cy cr l cy' cr' l' :
  correct_objectives train_y ref k objs (cy, cr, l) = Return (cy', cr', l') ->
  l' = l ++ objective_warnings objs.
Proof.
  revert k cy cr l. induction objs as [|[name goal] objs IH]; intros k cy cr l;
    cbn [correct_objectives].
  - intros [= <- <- <-]. cbn. by rewrite app_nil_r.
  - rewrite objective_warnings_cons. cbn [snd].
    destruct (String.eqb goal "MINIMIZE").
    + destruct (col train_y k) as [y|]; cbn [py_bind]; [|discriminate].
      destruct (py_index ref (Z.of_nat k)) as [r|]; cbn [py_bind]; [|discriminate].
      apply IH.
    + destruct (String.eqb goal "MAXIMIZE"); [apply IH|].
      intros H. apply IH in H. by rewrite H, <- app_assoc.
Qed.

Lemma correct_constraints_log (train_c : tensor)
    (cons : list (string * (string * Q))) (k : nat) cc l cc' l' :
  correct_constraints train_c k cons (cc, l) = Return (cc', l') ->
  l' = l ++ constraint_warnings cons.
Proof.
  revert k cc l. induction cons as [|[name goal] cons IH]; intros k cc l;
    cbn [correct_constraints].
  - intros [= <- <-]. cbn. by rewrite app_nil_r.
  - rewrite constraint_warnings_cons. cbn [snd fst].
    destruct (String.eqb (fst goal) "GREATER_THAN").
    + destruct (col train_c k) as [c|]; cbn [py_bind]; [|discriminate]. apply IH.
    + destruct (String.eqb (fst goal) "LESS_THAN").
      * destruct (col train_c k) as [c|]; cbn [py_bind]; [|discriminate]. apply IH.
      * intros H. apply IH in H. by rewrite H, <- app_assoc.
Qed.

(** ** The loop *)

Lemma collect_results_raise (results : list result) (vocs : VOCS) (e : exn) :
  collect_results results vocs = Raise e ->
  exn_class e = "KeyError" \/ exn_class e = "NoValidResultsError".
Proof.
  unfold collect_results.
  destruct (collect_loop vocs results _) as [[[[tx ty] tc] b]|e'] eqn:Hl; simpl.
  - destruct b; simpl; [discriminate|]. intros [= <-]. by right.
  - intros [= <-]. left. by eapply MoboProps.collect_loop_raise.
Qed.

Lemma qehvi_acq_func_raise (model : SingleTaskGP) (ty tc : tensor) (ref_point : list Q)
    (sampler : nat) (e : exn) :
  qehvi_acq_func model ty tc ref_point sampler = Raise e ->
  exn_class e = "BotorchTensorDimensionError".
Proof.
  unfold qehvi_acq_func, IdentityMCMultiOutputObjective.
  destruct (_ <? 2)%nat; cbn [py_bind]; [by intros [= <-] | discriminate].
Qed.

Section Loop.

Variable evaluate_f : gmap string Q -> py (gmap string Q).
Variable standardize : tensor -> tensor.
Variable fit_gpytorch_model : SingleTaskGP -> py unit.
Variable optimize_acqf : optimize_acqf_args -> py (tensor * list Q).
Variable is_non_dominated : tensor -> list bool.
Variable hv_compute : list Q -> tensor -> py Q.
Variable draw_sobol_samples : tensor -> nat -> nat -> list tensor.
Variables (vocs : VOCS) (ref : list Q) (mc_samples : nat) (bounds : tensor).

Local Abbreviation iteration :=
  (mobo_iteration evaluate_f standardize fit_gpytorch_model optimize_acqf
                  is_non_dominated hv_compute vocs ref mc_samples bounds).
Local Abbreviation loop :=
  (mobo_loop evaluate_f standardize fit_gpytorch_model optimize_acqf
             is_non_dominated hv_compute vocs ref mc_samples bounds).

Lemma normalize_raise (ty tc : tensor) (l : list warning) (e : exn) :
  normalize standardize vocs ref ty tc l = Raise e -> exn_class e = "IndexError".
Proof.
  unfold normalize.
  destruct (correct_objectives _ _ _ _ _) as [[[cy cr] l1]|e1] eqn:Ho; simpl;
    [|intros [= <-]; by eapply correct_objectives_raise].
  destruct (correct_constraints _ _ _ _) as [[cc l2]|e2] eqn:Hc; simpl;
    [discriminate | intros [= <-]; by eapply correct_constraints_raise].
Qed.

Lemma normalize_log (ty tc : tensor) (l : list warning) (n : normalized) :
  normalize standardize vocs ref ty tc l = Return n ->
  norm_log n
  = l ++ objective_warnings (objectives vocs) ++ constraint_warnings (constraints vocs).
Proof.
  unfold normalize.
  destruct (correct_objectives _ _ _ _ _) as [[[cy cr] l1]|e1] eqn:Ho; simpl;
    [|discriminate].
  destruct (correct_constraints _ _ _ _) as [[cc l2]|e2] eqn:Hc; simpl; [|discriminate].
  intros [= <-]. cbn.
  apply correct_objectives_log in Ho. apply correct_constraints_log in Hc.
  by rewrite Hc, Ho, <- app_assoc.
Qed.

(** With library calls that raise no [NoValidResultsError] of their own, no
    iteration, and so no run of the loop, ends with one: the one of the
    collector is caught. *)
Lemma mobo_iteration_raise (st : locals) (e : exn) :
  (forall m e', fit_gpytorch_model m = Raise e' -> exn_class e' <> "NoValidResultsError") ->
  (forall a e', optimize_acqf a = Raise e' -> exn_class e' <> "NoValidResultsError") ->
  (forall r t e', hv_compute r t = Raise e' -> exn_class e' <> "NoValidResultsError") ->
  iteration st = Raise e -> exn_class e <> "NoValidResultsError".
Proof.
  intros Hfit Hopt Hhv. unfold mobo_iteration.
  destruct (normalize _ _ _ _ _ _) as [n|e1] eqn:Hn; cbn [py_bind].
  2:{ intros [= <-]. apply normalize_raise in Hn. rewrite Hn. discriminate. }
  unfold propose.
  destruct (fit_gpytorch_model _) as [[]|e1] eqn:Hf; cbn [py_bind];
    [|intros [= <-]; by eapply Hfit].
  unfold optimize_qehvi.
  destruct (qehvi_acq_func _ _ _ _ _) as [acq|e1] eqn:Hacq; cbn [py_bind].
  2:{ intros [= <-]. apply qehvi_acq_func_raise in Hacq. rewrite Hacq. discriminate. }
  destruct (optimize_acqf _) as [[candidates values]|e1] eqn:Ho; cbn [py_bind];
    [|intros [= <-]; by eapply Hopt].
  destruct (collect_results _ vocs) as [[[new_x new_y] new_c]|e1] eqn:Hc.
  - unfold report_volume. destruct (0 <? _)%nat; [|discriminate].
    destruct (hv_compute _ _) as [v|e1] eqn:Hv; cbn [py_bind];
      [discriminate | intros [= <-]; by eapply Hhv].
  - destruct (String.eqb (exn_class e1) "NoValidResultsError") eqn:He; [discriminate|].
    intros [= <-]. by apply String.eqb_neq in He.
Qed.

Lemma mobo_loop_raise (n_steps : nat) (st : locals) (e : exn) :
  (forall m e', fit_gpytorch_model m = Raise e' -> exn_class e' <> "NoValidResultsError") ->
  (forall a e', optimize_acqf a = Raise e' -> exn_class e' <> "NoValidResultsError") ->
  (forall r t e', hv_compute r t = Raise e' -> exn_class e' <> "NoValidResultsError") ->
  loop n_steps st = Raise e -> exn_class e <> "NoValidResultsError".
Proof.
  intros Hfit Hopt Hhv.
  revert st. induction n_steps as [|n IH]; intros st; cbn [mobo_loop]; [discriminate|].
  destruct (iteration st) as [st1|e1] eqn:Hit; cbn [py_bind].
  - apply IH.
  - intros [= <-]. by eapply mobo_iteration_raise.
Qed.

(** X19.  With library calls that raise no [NoValidResultsError] of their
    own (the class belongs to this module), the optimization loop never lets
    one out: the one the collector raises on a batch without a success is
    caught on every iteration, so an exception that ends the loop is of
    another class. *)
Theorem mobo_loop_raises (n_steps : nat) (st : locals) (e : exn) :
  (forall m e', fit_gpytorch_model m = Raise e' -> exn_class e' <> "NoValidResultsError") ->
  (forall a e', optimize_acqf a = Raise e' -> exn_class e' <> "NoValidResultsError") ->
  (forall r t e', hv_compute r t = Raise e' -> exn_class e' <> "NoValidResultsError") ->
  loop n_steps st = Raise e -> exn_class e <> "NoValidResultsError".
Proof. apply mobo_loop_raise. Qed.

Lemma mobo_iteration_rows (st st' : locals) :
  iteration st = Return st' ->
  (exists new_x new_y new_c,
     train_x st' = train_x st ++ new_x /\
     train_y st' = train_y st ++ new_y /\
     train_c st' = train_c st ++ new_c /\
     length new_x = length new_y /\ length new_y = length new_c) /\
  log st'
  = log st ++ objective_warnings (objectives vocs) ++ constraint_warnings (constraints vocs).
Proof.
  unfold mobo_iteration.
  destruct (normalize _ _ _ _ _ _) as [n|e1] eqn:Hn; cbn [py_bind]; [|discriminate].
  apply normalize_log in Hn.
  destruct (propose _ _ _ _ _ _) as [[m candidates]|e1]; cbn [py_bind]; [|discriminate].
  destruct (collect_results _ vocs) as [[[new_x new_y] new_c]|e1] eqn:Hc.
  - destruct (report_volume _ _ _) as [v|e1]; cbn [py_bind]; [|discriminate].
    intros [= <-]. cbn. split; [|exact Hn].
    apply MoboProps.collect_results_return in Hc as (_ & Hx & Hy & Hcc). cbn in *.
    exists new_x, new_y, new_c. repeat split; congruence.
  - destruct (String.eqb (exn_class e1) "NoValidResultsError"); [|discriminate].
    intros [= <-]. cbn. split; [|exact Hn].
    exists [], [], []. by rewrite !app_nil_r.
Qed.

Lemma mobo_loop_rows (n_steps : nat) (st st' : locals) :
  loop n_steps st = Return st' ->
  exists new_x new_y new_c,
    train_x st' = train_x st ++ new_x /\
    train_y st' = train_y st ++ new_y /\
    train_c st' = train_c st ++ new_c /\
    length new_x = length new_y /\ length new_y = length new_c.
Proof.
  revert st. induction n_steps as [|n IH]; intros st; cbn [mobo_loop].
  - intros [= <-]. exists [], [], []. by rewrite !app_nil_r.
  - destruct (iteration st) as [st1|e1] eqn:Hit; cbn [py_bind]; [|discriminate].
    intros Hloop.
    apply mobo_iteration_rows in Hit as [(x1 & y1 & c1 & Hx1 & Hy1 & Hc1 & L1 & L2) _].
    apply IH in Hloop as (x2 & y2 & c2 & Hx2 & Hy2 & Hc2 & L3 & L4).
    exists (x1 ++ x2), (y1 ++ y2), (c1 ++ c2).
    rewrite Hx2, Hy2, Hc2, Hx1, Hy1, Hc1, <- !app_assoc, !length_app.
    repeat split; lia.
Qed.

(** X20.  The training data only grows, and by whole observations: when the
    loop ends, each of the three tensors is the one it started from followed
    by new rows, the same number of rows in each. *)
Theorem mobo_loop_appends (n_steps : nat) (st st' : locals) :
  loop n_steps st = Return st' ->
  exists new_x new_y new_c,
    train_x st' = train_x st ++ new_x /\
    train_y st' = train_y st ++ new_y /\
    train_c st' = train_c st ++ new_c /\
    length new_x = length new_y /\ length new_y = length new_c.
Proof. apply mobo_loop_rows. Qed.

(** X21.  The goals that are not recognized are warned about again on every
    iteration: when the loop ends after [n_steps] iterations, the warnings
    issued are [n_steps] copies of those of the objectives followed by those
    of the constraints. *)
Theorem mobo_loop_warnings (n_steps : nat) (st st' : locals) :
  loop n_steps st = Return st' ->
  log st'
  = log st ++ concat (replicate n_steps
                        (objective_warnings (objectives vocs)
                         ++ constraint_warnings (constraints vocs))).
Proof.
  revert st. induction n_steps as [|n IH]; intros st; cbn [mobo_loop].
  - intros [= <-]. cbn. by rewrite app_nil_r.
  - destruct (iteration st) as [st1|e1] eqn:Hit; cbn [py_bind]; [|discriminate].
    intros Hloop. apply mobo_iteration_rows in Hit as [_ Hlog].
    apply IH in Hloop. rewrite Hloop, Hlog. cbn. by rewrite <- !app_assoc.
Qed.

End Loop.

Section Run.

Variable evaluate_f : gmap string Q -> py (gmap string Q).
Variable standardize : tensor -> tensor.
Variable fit_gpytorch_model : SingleTaskGP -> py unit.
Variable optimize_acqf : optimize_acqf_args -> py (tensor * list Q).
Variable is_non_dominated : tensor -> list bool.
Variable hv_compute : list Q -> tensor -> py Q.
Variable draw_sobol_samples : tensor -> nat -> nat -> list tensor.
Variables (vocs : VOCS) (ref : list Q) (mc_samples : nat).

(** X22.  What [mobo] returns is never empty and is row-aligned: the three
    tensors have the same number of rows, at least one. *)
Theorem mobo_returns_aligned (n_steps n_initial_samples : nat)
    (initial_x : option tensor) (x y c : tensor) :
  mobo evaluate_f standardize fit_gpytorch_model optimize_acqf is_non_dominated
       hv_compute draw_sobol_samples vocs ref n_steps mc_samples n_initial_samples
       initial_x
  = Return (x, y, c) ->
  (1 <= length x)%nat /\ length x = length y /\ length y = length c.
Proof.
  unfold mobo, mobo_locals.
  destruct (match initial_x with Some _ => _ | None => _ end) as [x0|]; cbn [py_bind];
    [|discriminate].
  destruct (collect_results _ vocs) as [[[tx ty] tc]|] eqn:Hc; cbn [py_bind];
    [|discriminate].
  destruct (mobo_loop _ _ _ _ _ _ _ _ _ _ _ _) as [st'|] eqn:Hloop; cbn [py_bind];
    [|discriminate].
  intros [= <- <- <-].
  apply MoboProps.collect_results_return in Hc as (Hne & Hx & Hy & Hcc). cbn in *.
  apply mobo_loop_rows in Hloop.
  destruct Hloop as (x2 & y2 & c2 & Hx2 & Hy2 & Hc2 & L3 & L4). cbn in *.
  rewrite Hx2, Hy2, Hc2, !length_app.
  destruct (successes _) as [|r rs]; [by destruct Hne|]. cbn in *. lia.
Qed.

(** X23.  With initial points given, and library calls that raise no
    [NoValidResultsError] of their own (the class belongs to this module),
    [mobo] raises [NoValidResultsError] exactly when no evaluation of the
    initial batch returned, an empty initial batch included; a later batch
    without a success never does. *)
Theorem mobo_no_valid_results_iff (n_steps n_initial_samples : nat) (x0 : tensor) :
  (forall m e, fit_gpytorch_model m = Raise e -> exn_class e <> "NoValidResultsError") ->
  (forall a e, optimize_acqf a = Raise e -> exn_class e <> "NoValidResultsError") ->
  (forall r t e, hv_compute r t = Raise e -> exn_class e <> "NoValidResultsError") ->
  (exists msg,
     mobo evaluate_f standardize fit_gpytorch_model optimize_acqf is_non_dominated
          hv_compute draw_sobol_samples vocs ref n_steps mc_samples n_initial_samples
          (Some x0)
     = Raise (NoValidResultsError msg))
  <-> successes (evaluate_batch evaluate_f vocs x0) = [].
Proof.
  intros Hfit Hopt Hhv. unfold mobo, mobo_locals. cbn [py_bind]. split.
  - intros [msg H].
    destruct (collect_results _ vocs) as [[[tx ty] tc]|e] eqn:Hc; cbn [py_bind] in H.
    + destruct (mobo_loop _ _ _ _ _ _ _ _ _ _ _ _) as [st'|e] eqn:Hloop;
        cbn [py_bind] in H; [discriminate|].
      injection H as ->. exfalso.
      eapply (mobo_loop_raise _ _ _ _ _ _ _ _ _ _ _ _ _ Hfit Hopt Hhv Hloop). reflexivity.
    + injection H as ->. by eapply MoboProps.collect_results_no_valid.
  - intros Hnil. exists "No valid results".
    unfold collect_results.
    rewrite (MoboProps.collect_loop_complete vocs _ [] [] [] false)
      by (rewrite Hnil; apply Forall_nil_2).
    rewrite Hnil. reflexivity.
Qed.

End Run.

(** ** The acquisition function *)

Lemma elem_of_mask_rows (t : tensor) (mask : list bool) (y : list Q) :
  y ∈ mask_rows t mask <-> exists i, t !! i = Some y /\ mask !! i = Some true.
Proof.
  unfold mask_rows. rewrite list_elem_of_fmap. split.
  - intros ([y' b] & -> & Hin). apply list_elem_of_filter in Hin as [Hb Hin].
    cbn in Hb. subst b.
    apply elem_of_lookup_zip_with in Hin as (i & y0 & b0 & [= <- <-] & Hy & Hb).
    exists i. auto.
  - intros (i & Hy & Hb). exists (y, true). split; [reflexivity|].
    apply list_elem_of_filter. split; [reflexivity|].
    apply elem_of_lookup_zip_with. exists i, y, true. auto.
Qed.

Lemma forallb_Forall {A} (f : A -> bool) (P : A -> Prop) (l : list A) :
  (forall x, f x = true <-> P x) -> forallb f l = true <-> Forall P l.
Proof.
  intros Hfp. induction l as [|x l IH]; cbn.
  - split; [intros _; apply Forall_nil_2 | reflexivity].
  - rewrite andb_true_iff, Forall_cons, Hfp, IH. reflexivity.
Qed.

(** X24.  When the acquisition function is built, the observations its
    non-dominated partitioning is built from are exactly the rows of
    [train_y] that lie strictly above the reference point in every objective
    and whose row of [train_c] has no positive entry. *)
Theorem partitioning_rows (model : SingleTaskGP) (train_y train_c : tensor)
    (ref_point : list Q) (sampler : nat) (acq : qExpectedHypervolumeImprovement)
    (y : list Q) :
  qehvi_acq_func model train_y train_c ref_point sampler = Return acq ->
  y ∈ part_Y (acq_partitioning acq)
  <-> exists i c,
        train_y !! i = Some y /\ train_c !! i = Some c /\
        Forall (fun yr : Q * Q => (snd yr < fst yr)%Q) (zip y ref_point) /\
        Forall (fun x : Q => (x <= 0)%Q) c.
Proof.
  unfold qehvi_acq_func.
  destruct (IdentityMCMultiOutputObjective _) as [objective|]; cbn [py_bind];
    [|discriminate].
  intros [= <-]. cbn [acq_partitioning part_Y].
  rewrite elem_of_mask_rows.
  assert (Hgt : forall row : list Q,
            forallb (fun xr : Q * Q => negb (Qle_bool (fst xr) (snd xr))) (zip row ref_point)
            = true
            <-> Forall (fun yr : Q * Q => (snd yr < fst yr)%Q) (zip row ref_point)).
  { intros row. apply forallb_Forall. intros [a b]. cbn [fst snd].
    rewrite negb_true_iff. split.
    - intros H. apply Qnot_le_lt. intros Hle. apply Qle_bool_iff in Hle. congruence.
    - intros H. destruct (Qle_bool a b) eqn:Hle; [|reflexivity].
      apply Qle_bool_iff in Hle. exfalso. by eapply Qlt_not_le. }
  assert (Hle : forall row : list Q,
            forallb (fun x : Q => Qle_bool x 0) row = true
            <-> Forall (fun x : Q => (x <= 0)%Q) row).
  { intros row. apply forallb_Forall. intros x. apply Qle_bool_iff. }
  unfold all_gt, all_le_0. split.
  - intros (i & Hy & Hm). rewrite lookup_zip_with, !list_lookup_fmap, Hy in Hm.
    cbn in Hm. destruct (train_c !! i) as [c|] eqn:Hc; cbn in Hm; [|discriminate].
    injection Hm as Hm. apply andb_true_iff in Hm as [H1 H2].
    exists i, c. rewrite <- Hgt, <- Hle. auto.
  - intros (i & c & Hy & Hc & H1 & H2). exists i. split; [exact Hy|].
    rewrite lookup_zip_with, !list_lookup_fmap, Hy, Hc. cbn.
    apply Hgt in H1. apply Hle in H2. by rewrite H1, H2.
Qed.

(** ** The hypervolume report *)

Lemma mask_rows_none (t : tensor) (mask : list bool) :
  Forall (fun b => b = false) mask -> mask_rows t mask = [].
Proof.
  intros Hm. unfold mask_rows.
  destruct (filter _ (zip t mask)) as [|[y b] l] eqn:Hf; [reflexivity|].
  assert (Hin : (y, b) ∈ filter (fun rm : list Q * bool => snd rm = true) (zip t mask))
    by (rewrite Hf; by left).
  apply list_elem_of_filter in Hin as [Hb Hin]. cbn in Hb. subst b.
  apply elem_of_zip_r in Hin.
  by pose proof (proj1 (Forall_forall _ _) Hm true Hin).
Qed.

(** X25.  When every row of the corrected constraints has a positive entry,
    no observation is feasible and the volume reported is [0], whatever the
    hypervolume routine would compute. *)
Theorem report_volume_infeasible (is_non_dominated : tensor -> list bool)
    (hv_compute : list Q -> tensor -> py Q) (n : normalized) :
  Forall (fun row : list Q => Exists (fun x : Q => (0 < x)%Q) row) (corrected_train_c n) ->
  report_volume is_non_dominated hv_compute n = Return 0%Q.
Proof.
  intros Hinf. unfold report_volume. rewrite mask_rows_none; [reflexivity|].
  unfold all_le_0. apply Forall_fmap.
  eapply Forall_impl; [exact Hinf|]. intros row Hrow. cbn.
  apply Exists_exists in Hrow as (x & Hin & Hx).
  destruct (forallb (fun x0 : Q => Qle_bool x0 0) row) eqn:Hall; [|reflexivity].
  exfalso. rewrite forallb_forall in Hall.
  apply list_elem_of_In in Hin. apply Hall, Qle_bool_iff in Hin.
  by eapply Qlt_not_le.
Qed.

(** ** Runs of the concrete instance *)

Lemma get_results_polling_count_witness :
  exists results,
    get_results_polling 3 Toy.first_done Toy.batch = Some results /\
    (length Toy.batch <= length results)%nat /\
    (length results < 2 * length Toy.batch)%nat.
Proof.
  destruct (get_results_polling 3 Toy.first_done Toy.batch) as [results|] eqn:H;
    [|vm_compute in H; discriminate H].
  exists results. split; [reflexivity|].
  destruct (get_results_polling_count 3 Toy.first_done Toy.batch results H)
    as (H1 & H2 & _).
  split; [exact H1|]. apply H2. discriminate.
Defined.

Lemma get_results_polling_all_done_witness :
  get_results_polling 1 (fun _ _ => true) Toy.batch = Some Toy.batch.
Proof.
  apply (get_results_polling_all_done 0 (fun _ _ => true) Toy.batch).
  intros ix _. reflexivity.
Defined.

Lemma get_results_polling_repeats_witness :
  get_results_polling 2 Toy.first_done Toy.batch
  = Some (concat (replicate 2 (done_results (Toy.first_done 0) Toy.batch))).
Proof.
  apply (get_results_polling_repeats 2 2 Toy.first_done (Toy.first_done 0) Toy.batch).
  - intros pass ix. reflexivity.
  - lia.
  - vm_compute. lia.
  - vm_compute. lia.
  - lia.
Defined.

Lemma collect_results_incomplete_success_witness :
  exists e,
    collect_results [mkResult {[ "x" := 2%Q ]} ∅ None false] Toy.vocs = Raise e /\
    exn_class e = "KeyError".
Proof.
  apply collect_results_incomplete_success.
  apply Exists_exists. exists (mkResult {[ "x" := 2%Q ]} ∅ None false). split.
  - apply list_elem_of_filter. split; [reflexivity | by left].
  - right. left. exists "f". split; [by left | reflexivity].
Defined.

Lemma collected_inputs_are_submitted_witness :
  [[1%Q]] = filter (fun x => evaluated_ok (Toy.evaluate_f 2) Toy.vocs x = true)
                   [[1%Q]; [9%Q]].
Proof.
  apply (collected_inputs_are_submitted (Toy.evaluate_f 2) Toy.vocs
           [[1%Q]; [9%Q]] [[1%Q]] [[1%Q]] [[]]).
  - apply NoDup_singleton.
  - repeat constructor.
  - vm_compute. reflexivity.
Defined.

Lemma correct_constraints_feasible_witness :
  correct_constraints [[3; -1]]%Q 0
    [("c1", ("LESS_THAN", 1%Q)); ("c2", ("GREATER_THAN", 0%Q))] ([[3; -1]]%Q, [])
  = Return ([[(- (1 - 3))%Q; (0 - -1)%Q]], []).
Proof.
  destruct (correct_constraints_feasible [[3; -1]]%Q
              [("c1", ("LESS_THAN", 1%Q)); ("c2", ("GREATER_THAN", 0%Q))] []) as [H _].
  - repeat constructor.
  - exact H.
Defined.

Lemma correct_objectives_signs_witness :
  correct_objectives [[1; 2]]%Q [0; 0]%Q 0 [("f", "MINIMIZE"); ("g", "MAXIMIZE")]
                     ([[1; 2]]%Q, [0; 0]%Q, [])
  = Return ([[(- 1)%Q; 2%Q]], [(- 0)%Q; 0%Q], []).
Proof.
  apply (correct_objectives_signs [[1; 2]]%Q [0; 0]%Q
           [("f", "MINIMIZE"); ("g", "MAXIMIZE")] []).
  - repeat constructor.
  - reflexivity.
Defined.

Lemma correct_objectives_short_ref_witness :
  exists e,
    correct_objectives [[1%Q]] [] 0 [("f", "MINIMIZE")] ([[1%Q]], [], []) = Raise e /\
    exn_class e = "IndexError".
Proof.
  apply (correct_objectives_short_ref [[1%Q]] [] [("f", "MINIMIZE")] [] 0 "f").
  - reflexivity.
  - simpl. lia.
Defined.

Lemma mobo_loop_raises_witness :
  exists e,
    Toy.mobo_loop 8 6 Toy.vocs [0%Q] 128 (get_bounds Toy.vocs) 2
      (mkLocals [[0]; [2]; [4]]%Q [[0]; [2]; [4]]%Q [[]; []; []] [] None [])
    = Raise e /\
    exn_class e = "BotorchTensorDimensionError" /\
    exn_class e <> "NoValidResultsError".
Proof.
  destruct (Toy.mobo_loop 8 6 Toy.vocs [0%Q] 128 (get_bounds Toy.vocs) 2
              (mkLocals [[0]; [2]; [4]]%Q [[0]; [2]; [4]]%Q [[]; []; []] [] None []))
    as [st'|e] eqn:H; [vm_compute in H; discriminate H|].
  exists e. split; [reflexivity|]. split.
  - vm_compute in H. by injection H as <-.
  - apply (mobo_loop_raises (Toy.evaluate_f2 8) Toy.standardize Toy.fit_gpytorch_model
             (Toy.optimize_acqf 6) Toy.is_non_dominated Toy.hv_compute Toy.vocs [0%Q] 128
             (get_bounds Toy.vocs) 2
             (mkLocals [[0]; [2]; [4]]%Q [[0]; [2]; [4]]%Q [[]; []; []] [] None []) e).
    + intros m e' H'. discriminate H'.
    + intros a e' H'. discriminate H'.
    + intros r t e' H'. discriminate H'.
    + exact H.
Defined.

Lemma mobo_loop_appends_witness :
  exists st' new_x new_y new_c,
    Toy.mobo_loop 8 6 Toy.vocs2 [0; 0]%Q 128 (get_bounds Toy.vocs2) 2 Toy.start
    = Return st' /\
    train_x st' = train_x Toy.start ++ new_x /\
    train_y st' = train_y Toy.start ++ new_y /\
    train_c st' = train_c Toy.start ++ new_c /\
    length new_x = length new_y /\ length new_y = length new_c.
Proof.
  destruct (Toy.mobo_loop 8 6 Toy.vocs2 [0; 0]%Q 128 (get_bounds Toy.vocs2) 2 Toy.start)
    as [st'|e] eqn:H; [|vm_compute in H; discriminate H].
  destruct (mobo_loop_appends _ _ _ _ _ _ _ _ _ _ _ _ _ H)
    as (x & y & c & Hx & Hy & Hc & L).
  exists st', x, y, c. auto.
Defined.

Lemma mobo_loop_warnings_witness :
  exists st',
    Toy.mobo_loop 8 6 Toy.vocs2_odd [0; 0]%Q 128 (get_bounds Toy.vocs2_odd) 2 Toy.start
    = Return st' /\
    log st' = [ObjectiveGoalNotFound "BEST"; ObjectiveGoalNotFound "BEST"].
Proof.
  destruct (Toy.mobo_loop 8 6 Toy.vocs2_odd [0; 0]%Q 128 (get_bounds Toy.vocs2_odd) 2
              Toy.start) as [st'|e] eqn:H; [|vm_compute in H; discriminate H].
  exists st'. split; [reflexivity|].
  exact (mobo_loop_warnings _ _ _ _ _ _ _ _ _ _ _ _ _ H).
Defined.

Lemma mobo_returns_aligned_witness :
  exists x y c,
    Toy.mobo 8 6 Toy.vocs2 [0; 0]%Q 2 128 5 (Some [[0]; [2]; [4]]%Q) = Return (x, y, c) /\
    (1 <= length x)%nat /\ length x = length y /\ length y = length c.
Proof.
  destruct (Toy.mobo 8 6 Toy.vocs2 [0; 0]%Q 2 128 5 (Some [[0]; [2]; [4]]%Q))
    as [[[x y] c]|e] eqn:H; [|vm_compute in H; discriminate H].
  exists x, y, c. split; [reflexivity|].
  exact (mobo_returns_aligned _ _ _ _ _ _ _ _ _ _ _ _ _ _ _ _ H).
Defined.

Lemma mobo_no_valid_results_iff_witness :
  (exists msg,
     Toy.mobo 4 6 Toy.vocs2 [0; 0]%Q 2 128 5 (Some [[5]; [7]]%Q)
     = Raise (NoValidResultsError msg))
  <-> successes (evaluate_batch (Toy.evaluate_f2 4) Toy.vocs2 [[5]; [7]]%Q) = [].
Proof.
  apply (mobo_no_valid_results_iff (Toy.evaluate_f2 4) Toy.standardize
           Toy.fit_gpytorch_model (Toy.optimize_acqf 6) Toy.is_non_dominated
           Toy.hv_compute Toy.draw_sobol_samples Toy.vocs2 [0; 0]%Q 128 2 5
           [[5]; [7]]%Q).
  - intros m e H. discriminate H.
  - intros a e H. discriminate H.
  - intros r t e H. discriminate H.
Defined.

Lemma partitioning_rows_witness :
  exists acq,
    qehvi_acq_func (mkSingleTaskGP [[1]; [2]]%Q [[1; 2]; [-1; 3]]%Q)
                   [[1; 2]; [-1; 3]]%Q [[]; []] [0; 0]%Q 128 = Return acq /\
    ([1; 2]%Q ∈ part_Y (acq_partitioning acq)
     <-> exists i c,
           [[1; 2]; [-1; 3]]%Q !! i = Some [1; 2]%Q /\
           ([[]; []] : tensor) !! i = Some c /\
           Forall (fun yr : Q * Q => (snd yr < fst yr)%Q) (zip [1; 2]%Q [0; 0]%Q) /\
           Forall (fun x : Q => (x <= 0)%Q) c).
Proof.
  eexists. split; [reflexivity|].
  apply (partitioning_rows (mkSingleTaskGP [[1]; [2]]%Q [[1; 2]; [-1; 3]]%Q)
           [[1; 2]; [-1; 3]]%Q [[]; []] [0; 0]%Q 128).
  reflexivity.
Defined.

Lemma report_volume_infeasible_witness :
  report_volume Toy.is_non_dominated Toy.hv_compute
    (mkNormalized [0; 0]%Q [[5; 3]]%Q [[0; 0]]%Q [[1%Q]] [[0; 0; 1]]%Q []) = Return 0%Q.
Proof.
  apply report_volume_infeasible. cbn.
  apply Forall_cons_2; [|apply Forall_nil_2].
  apply Exists_cons_hd. reflexivity.
Defined.

End MoboMore.
